(** * Codefresh Terraform provider: resource mappers and REST client

    A shallow embedding of the Go sources:
    - [client/client.go]: [RequestAPI] and [ToQS];
    - the Context resource: [mapResourceToContext], [mapContextToResource],
      [flattenContextSpec], [getContextTypeFromResource];
    - [codefresh/resource_permission.go]: the custom diff, the update hook
      and [mapResourceToPermission];
    - the Pipeline resource: the trigger schema defaults and
      [mapResourceToPipeline].

    Go strings are [string], byte slices are [list Byte.byte], Go maps are
    [gmap], a nil map or slice is [None] where the code can tell it from an
    empty one.  Errors are their messages. *)

From Stdlib Require Import ZArith Ascii String List.
From stdpp Require Import base option list gmap sets strings pretty.

Set Warnings "-register-all".
Local Open Scope string_scope.

(** Go [error] values, identified with [err.Error()]. *)
Definition error : Type := string.

(** Fallible steps return [error + A]; [x ← c; k] stops at the first error,
    as [if err != nil { return err }] does. *)
#[global] Instance error_bind : MBind (sum error) :=
  λ A B f c, match c with inl e => inl e | inr a => f a end.

(** Go [interface{}] values as they occur in decoded YAML/JSON payloads and
    in the host's configuration tree. *)
Inductive value : Type :=
| VNil
| VBool (b : bool)
| VInt (n : Z)
| VString (s : string)
| VList (l : list value)
| VMap (m : gmap string value).

Definition is_VString (v : value) : Prop :=
  match v with VString _ => True | _ => False end.

#[global] Instance is_VString_dec v : Decision (is_VString v).
Proof. destruct v; simpl; apply _. Defined.

Definition as_string (v : value) : option string :=
  match v with VString s => Some s | _ => None end.

(** The host's [d.Set] on a [TypeMap] field with [TypeString] elements:
    a nil map reads back as the empty map, a map of strings is stored as it
    is, and any other element is refused. *)
Definition set_string_map (v : value) : error + gmap string string :=
  match v with
  | VNil => inr ∅
  | VMap m =>
      if decide (map_Forall (λ _ x, is_VString x) m)
      then inr (omap as_string m)
      else inl "expected type 'string'"
  | _ => inl "expected a map"
  end.

(** [d.Set] on a [TypeString] field. *)
Definition set_string (v : value) : error + string :=
  match v with
  | VNil => inr ""
  | VString s => inr s
  | _ => inl "expected type 'string'"
  end.

(** [d.Set] on a [TypeList] field whose element schema is not among the
    sources (the storage blocks): the list is stored as it is. *)
Definition set_list (v : value) : error + list value :=
  match v with
  | VNil => inr []
  | VList l => inr l
  | _ => inl "expected a list"
  end.

(** Error-propagating traversal of a list, as the host's field writer does
    for the elements of a [TypeList]. *)
Fixpoint mapE {A B} (f : A → error + B) (l : list A) : error + list B :=
  match l with
  | [] => inr []
  | x :: l' =>
      match f x with
      | inl e => inl e
      | inr y => match mapE f l' with inl e => inl e | inr ys => inr (y :: ys) end
      end
  end.

(** [d.Set] on a [TypeList] of blocks that hold the single field [data]. *)
Definition set_data_blocks {A} (set_data : value → error + A) (v : value)
  : error + list A :=
  match v with
  | VNil => inr []
  | VList bs =>
      mapE (λ b, match b with
                 | VMap bm => set_data (default VNil (bm !! "data"))
                 | _ => inl "expected a block"
                 end) bs
  | _ => inl "expected a list"
  end.

(** ** The Context resource *)

Module ContextResource.

(** The YAML codec ([github.com/ghodss/yaml]) as the mapper uses it:
    [yaml_Unmarshal] decodes into a [map[string]interface{}] target, which
    is left as it was (nil) when decoding fails; a document holding [null]
    decodes to the nil map without error. *)
Class YamlCodec := {
  yaml_Unmarshal : list Byte.byte → error + option (gmap string value);
  yaml_Marshal : option (gmap string value) → error + list Byte.byte
}.

Definition contextConfig : string := "config".
Definition contextSecret : string := "secret".
Definition contextYaml : string := "yaml".
Definition contextSecretYaml : string := "secret-yaml".
Definition contextGoogleStorage : string := "storage.gc".
Definition contextS3Storage : string := "storage.s3".
Definition contextAzureStorage : string := "storage.azuref".

Definition supportedContextType : list string :=
  [contextConfig; contextSecret; contextYaml; contextSecretYaml].

Definition encryptedContextTypes : list string :=
  [contextSecret; contextSecretYaml; contextS3Storage; contextAzureStorage].

(** The seven variants in the order in which the mapper probes them. *)
Definition contextTypes : list string :=
  [contextConfig; contextSecret; contextYaml; contextSecretYaml;
   contextGoogleStorage; contextS3Storage; contextAzureStorage].

(** The package helper [contains(slice, element)]. *)
Definition contains (l : list string) (x : string) : bool :=
  bool_decide (x ∈ l).

Record ContextMetadata := { Name : string }.

Record ContextSpec := {
  Type_ : string;
  Data : option (gmap string value)
}.

Record Context := {
  Metadata : ContextMetadata;
  Spec : ContextSpec
}.

(** Helpers of this repository that are not among the sources:
    [schemautil.MustNormalizeFieldName] turns a context type into its schema
    key, and the [storageContext] package converts the storage blocks. *)
Class Helpers := {
  MustNormalizeFieldName : string → string;
  ConvertJsonConfigStorageContext : list value → option (gmap string value);
  ConvertAzureStorageContext : list value → option (gmap string value);
  FlattenJsonConfigStorageContextConfig : ContextSpec → value;
  FlattenAzureStorageContextConfig : ContextSpec → value
}.

(** One element of the [spec] list: a slot per variant, each a list of
    blocks (at most one by the schema) reduced to its [data] field.  The
    slot [config] is the schema key [MustNormalizeFieldName contextConfig],
    and so on. *)
Record SpecBlock := {
  config : list (gmap string string);
  secret : list (gmap string string);
  yaml : list string;
  secret_yaml : list string;
  storage_gc : list (list value);
  storage_s3 : list (list value);
  storage_azuref : list (list value)
}.

(** The host's [schema.ResourceData] for [resourceContext]. *)
Record ResourceData := {
  name : string;
  decrypt_spec : bool;
  spec : list SpecBlock
}.

(** [d.GetOk("spec.0.<slot>.0.data")]: the value, the zero value when a
    path element is missing, and whether the value differs from the zero
    value of its type (the empty map, the empty string, the empty list). *)
Definition GetOk {A} (slot : SpecBlock → list A) (zero : A)
    (is_zero : A → bool) (d : ResourceData) : A * bool :=
  match spec d with
  | b :: _ =>
      match slot b with
      | x :: _ => (x, negb (is_zero x))
      | [] => (zero, false)
      end
  | [] => (zero, false)
  end.

Definition map_is_zero (m : gmap string string) : bool := bool_decide (m = ∅).
Definition string_is_zero (s : string) : bool := bool_decide (s = "").
Definition list_is_zero (l : list value) : bool :=
  match l with [] => true | _ => false end.

Definition GetOk_map slot := GetOk slot (∅ : gmap string string) map_is_zero.
Definition GetOk_string slot := GetOk slot "" string_is_zero.
Definition GetOk_list slot := GetOk slot ([] : list value) list_is_zero.

(** [data.(map[string]interface{})] on a map of strings. *)
Definition to_interface_map (m : gmap string string) : option (gmap string value) :=
  Some (VString <$> m).

Definition data_value (data : option (gmap string value)) : value :=
  match data with None => VNil | Some m => VMap m end.

Section Mapper.
Context `{YamlCodec} `{Helpers}.

Definition flattenContextConfig (spec : ContextSpec) : value :=
  VList [VMap {[ "data" := data_value (Data spec) ]}].

Definition flattenContextYaml (spec : ContextSpec) : value :=
  match yaml_Marshal (Data spec) with
  | inl _ => VNil
  | inr data => VList [VMap {[ "data" := VString (string_of_list_byte data) ]}]
  end.

Definition flattenContextSpec (spec : ContextSpec) : value :=
  let currentContextType := Type_ spec in
  if decide (currentContextType = contextConfig ∨ currentContextType = contextSecret) then
    VList [VMap {[ MustNormalizeFieldName currentContextType := flattenContextConfig spec ]}]
  else if decide (currentContextType = contextYaml ∨ currentContextType = contextSecretYaml) then
    VList [VMap {[ MustNormalizeFieldName currentContextType := flattenContextYaml spec ]}]
  else if decide (currentContextType = contextGoogleStorage ∨ currentContextType = contextS3Storage) then
    VList [VMap {[ MustNormalizeFieldName currentContextType :=
                     FlattenJsonConfigStorageContextConfig spec ]}]
  else if decide (currentContextType = contextAzureStorage) then
    VList [VMap {[ MustNormalizeFieldName currentContextType :=
                     FlattenAzureStorageContextConfig spec ]}]
  else VNil.

(** The host's [d.Set("spec", v)] for the schema of [resourceContext]: each
    element of the list is a map from schema keys to block lists; a key that
    is absent leaves its slot empty. *)
Definition set_spec_block (v : value) : error + SpecBlock :=
  match v with
  | VMap m =>
      let slot {A} (set_data : value → error + A) (t : string) :=
        set_data_blocks set_data (default VNil (m !! MustNormalizeFieldName t)) in
      c ← slot set_string_map contextConfig;
      s ← slot set_string_map contextSecret;
      y ← slot set_string contextYaml;
      sy ← slot set_string contextSecretYaml;
      gc ← slot set_list contextGoogleStorage;
      s3 ← slot set_list contextS3Storage;
      az ← slot set_list contextAzureStorage;
      inr {| config := c; secret := s; yaml := y; secret_yaml := sy;
             storage_gc := gc; storage_s3 := s3; storage_azuref := az |}
  | _ => inl "expected a block"
  end.

Definition set_spec (v : value) : error + list SpecBlock :=
  match v with
  | VNil => inr []
  | VList l => mapE set_spec_block l
  | _ => inl "expected a list"
  end.

Definition getContextTypeFromResource (d : ResourceData) : string :=
  if snd (GetOk_map config d) then contextConfig
  else if snd (GetOk_map secret d) then contextSecret
  else if snd (GetOk_string yaml d) then contextYaml
  else if snd (GetOk_string secret_yaml d) then contextSecretYaml
  else if snd (GetOk_list storage_gc d) then contextGoogleStorage
  else if snd (GetOk_list storage_s3 d) then contextS3Storage
  else if snd (GetOk_list storage_azuref d) then contextAzureStorage
  else "".

(** [yaml.Unmarshal([]byte(data), &normalizedContextData)] with the error
    dropped: the target starts as the nil map and stays nil on failure. *)
Definition unmarshal_ignoring_error (data : string) : option (gmap string value) :=
  match yaml_Unmarshal (list_byte_of_string data) with
  | inl _ => None
  | inr m => m
  end.

Definition mapResourceToContext (d : ResourceData) : Context :=
  let '(normalizedContextType, normalizedContextData) :=
    if snd (GetOk_map config d) then
      (contextConfig, to_interface_map (fst (GetOk_map config d)))
    else if snd (GetOk_map secret d) then
      (contextSecret, to_interface_map (fst (GetOk_map secret d)))
    else if snd (GetOk_string yaml d) then
      (contextYaml, unmarshal_ignoring_error (fst (GetOk_string yaml d)))
    else if snd (GetOk_string secret_yaml d) then
      (contextSecretYaml, unmarshal_ignoring_error (fst (GetOk_string secret_yaml d)))
    else if snd (GetOk_list storage_gc d) then
      (contextGoogleStorage,
       ConvertJsonConfigStorageContext (fst (GetOk_list storage_gc d)))
    else if snd (GetOk_list storage_s3 d) then
      (contextS3Storage,
       ConvertJsonConfigStorageContext (fst (GetOk_list storage_s3 d)))
    else if snd (GetOk_list storage_azuref d) then
      (contextAzureStorage,
       ConvertAzureStorageContext (fst (GetOk_list storage_azuref d)))
    else ("", None) in
  {| Metadata := {| Name := name d |};
     Spec := {| Type_ := normalizedContextType; Data := normalizedContextData |} |}.

(** The resource data after the call, and the error returned.  Setting the
    string field [name] cannot fail; a failed [d.Set("spec", ...)] leaves
    the field as it was. *)
Definition mapContextToResource (context : Context) (d : ResourceData)
  : ResourceData * option error :=
  let d := {| name := Name (Metadata context);
              decrypt_spec := decrypt_spec d; spec := spec d |} in
  let currentContextType := getContextTypeFromResource d in
  if decrypt_spec d || negb (contains encryptedContextTypes currentContextType) then
    match set_spec (flattenContextSpec (Spec context)) with
    | inl err => (d, Some err)
    | inr s => ({| name := name d; decrypt_spec := decrypt_spec d; spec := s |}, None)
    end
  else (d, None).
End Mapper.

(** Whether the tree populates the variant [t]: the [data] of its block is
    there and is not the zero value. *)
Definition populated (d : ResourceData) (t : string) : bool :=
  if decide (t = contextConfig) then snd (GetOk_map config d)
  else if decide (t = contextSecret) then snd (GetOk_map secret d)
  else if decide (t = contextYaml) then snd (GetOk_string yaml d)
  else if decide (t = contextSecretYaml) then snd (GetOk_string secret_yaml d)
  else if decide (t = contextGoogleStorage) then snd (GetOk_list storage_gc d)
  else if decide (t = contextS3Storage) then snd (GetOk_list storage_s3 d)
  else if decide (t = contextAzureStorage) then snd (GetOk_list storage_azuref d)
  else false.

(** The data of one variant. *)
Inductive Variant :=
| ConfigData (m : gmap string string)
| SecretData (m : gmap string string)
| YamlData (s : string)
| SecretYamlData (s : string)
| GoogleStorageData (l : list value)
| S3StorageData (l : list value)
| AzureStorageData (l : list value).

Definition variant_type (v : Variant) : string :=
  match v with
  | ConfigData _ => contextConfig
  | SecretData _ => contextSecret
  | YamlData _ => contextYaml
  | SecretYamlData _ => contextSecretYaml
  | GoogleStorageData _ => contextGoogleStorage
  | S3StorageData _ => contextS3Storage
  | AzureStorageData _ => contextAzureStorage
  end.

(** The data is not the zero value of its type. *)
Definition variant_nonzero (v : Variant) : bool :=
  match v with
  | ConfigData m | SecretData m => negb (map_is_zero m)
  | YamlData s | SecretYamlData s => negb (string_is_zero s)
  | GoogleStorageData l | S3StorageData l | AzureStorageData l => negb (list_is_zero l)
  end.

(** The [spec] block that holds the variant [v] and nothing else. *)
Definition variant_block (v : Variant) : SpecBlock :=
  match v with
  | ConfigData m =>
      {| config := [m]; secret := []; yaml := []; secret_yaml := [];
         storage_gc := []; storage_s3 := []; storage_azuref := [] |}
  | SecretData m =>
      {| config := []; secret := [m]; yaml := []; secret_yaml := [];
         storage_gc := []; storage_s3 := []; storage_azuref := [] |}
  | YamlData s =>
      {| config := []; secret := []; yaml := [s]; secret_yaml := [];
         storage_gc := []; storage_s3 := []; storage_azuref := [] |}
  | SecretYamlData s =>
      {| config := []; secret := []; yaml := []; secret_yaml := [s];
         storage_gc := []; storage_s3 := []; storage_azuref := [] |}
  | GoogleStorageData l =>
      {| config := []; secret := []; yaml := []; secret_yaml := [];
         storage_gc := [l]; storage_s3 := []; storage_azuref := [] |}
  | S3StorageData l =>
      {| config := []; secret := []; yaml := []; secret_yaml := [];
         storage_gc := []; storage_s3 := [l]; storage_azuref := [] |}
  | AzureStorageData l =>
      {| config := []; secret := []; yaml := []; secret_yaml := [];
         storage_gc := []; storage_s3 := []; storage_azuref := [l] |}
  end.

(** The payload [mapResourceToContext] builds from the data of [v]. *)
Definition variant_payload `{YamlCodec} `{Helpers} (v : Variant)
  : option (gmap string value) :=
  match v with
  | ConfigData m | SecretData m => to_interface_map m
  | YamlData s | SecretYamlData s => unmarshal_ignoring_error s
  | GoogleStorageData l | S3StorageData l => ConvertJsonConfigStorageContext l
  | AzureStorageData l => ConvertAzureStorageContext l
  end.

(** The configuration tree named [n] that populates the single variant
    [v]. *)
Definition single_config (n : string) (dec : bool) (v : Variant) : ResourceData :=
  {| name := n; decrypt_spec := dec; spec := [variant_block v] |}.





Definition nl : string := String (ascii_of_nat 10) "".


(** A sample of the YAML codec, tabulating what the library returns on the
    documents used in the examples: the mapping [a: b] (with or without the
    final newline), whose canonical serialisation is [a: b] followed by a
    newline, and the unterminated flow sequence [[], which does not parse.
    No statement evaluates it on another document. *)
Definition sample_yaml_Unmarshal (y : list Byte.byte)
  : error + option (gmap string value) :=
  let s := string_of_list_byte y in
  if decide (s = "a: b" ∨ s = "a: b" ++ nl)
  then inr (Some {[ "a" := VString "b" ]})
  else inl "yaml: did not find expected node content".

Definition sample_yaml_Marshal (o : option (gmap string value))
  : error + list Byte.byte :=
  match o with
  | Some m =>
      match map_to_list m with
      | [(k, VString v)] => inr (list_byte_of_string (k ++ ": " ++ v ++ nl))
      | _ => inl "not tabulated"
      end
  | None => inr (list_byte_of_string ("null" ++ nl))
  end.

#[export] Instance sample_yaml : YamlCodec :=
  {| yaml_Unmarshal := sample_yaml_Unmarshal; yaml_Marshal := sample_yaml_Marshal |}.

(** A sample of the helpers: the field name keeps the characters of
    [a-z0-9_]; the storage conversions are left empty, no example below
    goes through them. *)
Definition keep_char (c : ascii) : bool :=
  let n := nat_of_ascii c in
  ((97 <=? n) && (n <=? 122) || (48 <=? n) && (n <=? 57) || (n =? 95))%nat.

Fixpoint sample_normalize (s : string) : string :=
  match s with
  | EmptyString => EmptyString
  | String c s' =>
      if keep_char c then String c (sample_normalize s') else sample_normalize s'
  end.

#[export] Instance sample_helpers : Helpers :=
  {| MustNormalizeFieldName := sample_normalize;
     ConvertJsonConfigStorageContext := λ _, None;
     ConvertAzureStorageContext := λ _, None;
     FlattenJsonConfigStorageContextConfig := λ _, VNil;
     FlattenAzureStorageContextConfig := λ _, VNil |}.



End ContextResource.

(** ** The Permission resource ([codefresh/resource_permission.go]) *)

Module PermissionResource.

Record Permission := {
  ID : string;
  Team : string;
  Action : string;
  Resource : string;
  RelatedResource : string;
  RuleType : string;
  Tags : list string
}.

(** The attributes of the schema of [resourcePermission]. *)
Record Fields := {
  _id : string;
  team : string;
  resource : string;
  related_resource : string;
  action : string;
  rule_type : string;
  tags : gset string
}.

(** The host's [schema.ResourceData] (and [schema.ResourceDiff]): the
    identifier, the values before the change and the values read by [Get]. *)
Record ResourceData := {
  Id : string;
  prior : Fields;
  planned : Fields
}.

Definition SetId (id : string) (d : ResourceData) : ResourceData :=
  {| Id := id; prior := prior d; planned := planned d |}.

(** [d.HasChange(key)]: the old and the new value of the attribute differ
    (sets are compared as sets). *)
Definition HasChange (d : ResourceData) (key : string) : bool :=
  let o := prior d in
  let n := planned d in
  if decide (key = "_id") then bool_decide (_id o ≠ _id n)
  else if decide (key = "team") then bool_decide (team o ≠ team n)
  else if decide (key = "resource") then bool_decide (resource o ≠ resource n)
  else if decide (key = "related_resource") then
    bool_decide (related_resource o ≠ related_resource n)
  else if decide (key = "action") then bool_decide (action o ≠ action n)
  else if decide (key = "rule_type") then bool_decide (rule_type o ≠ rule_type n)
  else if decide (key = "tags") then bool_decide (tags o ≠ tags n)
  else false.

(** [d.HasChanges(keys...)]: one of the attributes changed. *)
Definition HasChanges (d : ResourceData) (keys : list string) : bool :=
  existsb (HasChange d) keys.

(** [funk.Contains] on a slice of strings. *)
Definition funk_Contains (l : list string) (x : string) : bool :=
  bool_decide (x ∈ l).

Definition resourcePermissionCustomDiff (diff : ResourceData) : option error :=
  let check1 :=
    if HasChanges diff ["resource"; "related_resource"] then
      if negb (bool_decide (related_resource (planned diff) = ""))
         && negb (bool_decide (resource (planned diff) = "pipeline"))
      then Some "related_resource is only valid when resource is 'pipeline'"
      else None
    else None in
  match check1 with
  | Some err => Some err
  | None =>
      if HasChanges diff ["resource"; "action"] then
        if funk_Contains ["run"; "approve"; "debug"] (action (planned diff))
           && negb (bool_decide (resource (planned diff) = "pipeline"))
        then Some ("action " ++ action (planned diff)
                   ++ " is only valid when resource is 'pipeline'")
        else None
      else None
  end.

(** Modelled from the spec: [datautil.ConvertStringArr] is not among the
    sources; it turns the [[]interface{}] of a string set into a [[]string],
    element by element.  Both are lists of strings here. *)
Definition ConvertStringArr (l : list string) : list string := l.

Definition mapResourceToPermission (d : ResourceData) : Permission :=
  let tagsI := elements (tags (planned d)) in
  let tags :=
    if (0 <? length tagsI)%nat then ConvertStringArr tagsI
    else ["*"; "untagged"] in
  {| ID := Id d;
     Team := team (planned d);
     Action := action (planned d);
     Resource := resource (planned d);
     RelatedResource := related_resource (planned d);
     RuleType := rule_type (planned d);
     Tags := tags |}.

(** Every [d.Set] below writes a value of the attribute's own type and
    returns no error. *)
Definition mapPermissionToResource (permission : Permission) (d : ResourceData)
  : ResourceData * option error :=
  ({| Id := Id d;
      prior := prior d;
      planned := {| _id := ID permission;
                    team := Team permission;
                    action := Action permission;
                    resource := Resource permission;
                    related_resource := RelatedResource permission;
                    tags := list_to_set (Tags permission);
                    rule_type := RuleType permission |} |}, None).

(** *** The calls of the API client

    The methods of [cfclient.Client] are not among the sources.  The remote
    service is any state machine answering the four calls; every call the
    provider makes is appended to the log [calls]. *)
Class Service := {
  ServiceState : Type;
  createPermission : Permission → ServiceState → (error + option Permission) * ServiceState;
  deletePermission : string → ServiceState → option error * ServiceState;
  updatePermissionTags : Permission → ServiceState → option error * ServiceState;
  getPermissionByID : string → ServiceState → (error + Permission) * ServiceState
}.

Inductive Call :=
| CallCreatePermission (p : Permission)
| CallDeletePermission (id : string)
| CallUpdatePermissionTags (p : Permission)
| CallGetPermissionByID (id : string).

Definition is_read_call (c : Call) : bool :=
  match c with CallGetPermissionByID _ => true | _ => false end.

(** The permission a call sends to the service, if it sends one. *)
Definition sent_permission (c : Call) : option Permission :=
  match c with
  | CallCreatePermission p | CallUpdatePermissionTags p => Some p
  | _ => None
  end.

Section Hooks.
Context `{Service}.

Record World := { service : ServiceState; calls : list Call }.

(** Computations that talk to the service. *)
Definition API (A : Type) : Type := World → A * World.

Definition ret {A} (a : A) : API A := λ w, (a, w).
Definition bind {A B} (c : API A) (k : A → API B) : API B :=
  λ w, let '(a, w') := c w in k a w'.

#[global] Instance API_bind : MBind API := λ A B k c, bind c k.

Definition call {A} (c : Call) (handler : ServiceState → A * ServiceState) : API A :=
  λ w, let '(a, s) := handler (service w) in
       (a, {| service := s; calls := calls w ++ [c] |}).

Definition CreatePermission (p : Permission) : API (error + option Permission) :=
  call (CallCreatePermission p) (createPermission p).
Definition DeletePermission (id : string) : API (option error) :=
  call (CallDeletePermission id) (deletePermission id).
Definition UpdatePermissionTags (p : Permission) : API (option error) :=
  call (CallUpdatePermissionTags p) (updatePermissionTags p).
Definition GetPermissionByID (id : string) : API (error + Permission) :=
  call (CallGetPermissionByID id) (getPermissionByID id).

(** What a hook leaves behind: the error it returns (if any), or a panic
    (a nil pointer dereference). *)
Inductive outcome := Returned (err : option error) | Panicked.

Definition resourcePermissionRead (d : ResourceData) : API (ResourceData * outcome) :=
  let permissionID := Id d in
  if decide (permissionID = "") then ret (SetId "" d, Returned None)
  else
    r ← GetPermissionByID permissionID;
    match r with
    | inl err => ret (d, Returned (Some err))
    | inr permission =>
        let '(d', err) := mapPermissionToResource permission d in
        ret (d', Returned err)
    end.

Definition resourcePermissionCreate (d : ResourceData) : API (ResourceData * outcome) :=
  let permission := mapResourceToPermission d in
  r ← CreatePermission permission;
  match r with
  | inl err => ret (d, Returned (Some err))
  | inr None =>
      ret (d, Returned (Some
        "resourcePermissionCreate - failed to create permission, empty response"))
  | inr (Some newPermission) => resourcePermissionRead (SetId (ID newPermission) d)
  end.

Definition resourcePermissionDelete (d : ResourceData) : API (option error) :=
  DeletePermission (Id d).

(** The warning logged when the delete fails has no effect on the data or on
    the calls and is left out. *)
Definition resourcePermissionUpdate (d : ResourceData) : API (ResourceData * outcome) :=
  let permission := mapResourceToPermission d in
  if HasChanges d ["team"; "action"; "related_resource"; "resource"; "rule_type"] then
    deleteErr ← resourcePermissionDelete d;
    r ← CreatePermission permission;
    match r with
    | inl err => ret (d, Returned (Some err))
    | inr None => ret (d, Panicked)
    | inr (Some resp) => resourcePermissionRead (SetId (ID resp) d)
    end
  else if HasChange d "tags" then
    err ← UpdatePermissionTags permission;
    match err with
    | Some e => ret (d, Returned (Some e))
    | None => resourcePermissionRead d
    end
  else resourcePermissionRead d.

(** The calls a computation adds to the log. *)
Definition calls_of {A} (c : API A) (w : World) : list Call :=
  drop (length (calls w)) (calls (snd (c w))).

Definition result_of {A} (c : API A) (w : World) : A := fst (c w).
End Hooks.

(** The attributes whose change makes the update hook replace the
    permission. *)
Definition replace_keys : list string :=
  ["team"; "action"; "related_resource"; "resource"; "rule_type"].

(** Sample attribute values. *)
Definition sample_fields (tm act res rel : string) (tg : gset string) : Fields :=
  {| _id := "p1"; team := tm; resource := res; related_resource := rel;
     action := act; rule_type := "any"; tags := tg |}.

(** A sample service: it keeps nothing, every delete fails, a create hands
    back the permission under the identifier [new], and a lookup answers
    with a fixed permission. *)
Definition sample_permission (id : string) : Permission :=
  {| ID := id; Team := "t1"; Action := "read"; Resource := "pipeline";
     RelatedResource := ""; RuleType := "any"; Tags := ["*"; "untagged"] |}.

#[export] Instance failing_delete_service : Service :=
  {| ServiceState := unit;
     createPermission := λ p s,
       (inr (Some {| ID := "new"; Team := Team p; Action := Action p;
                     Resource := Resource p; RelatedResource := RelatedResource p;
                     RuleType := RuleType p; Tags := Tags p |}), s);
     deletePermission := λ _ s, (Some "404 Not Found, permission not found", s);
     updatePermissionTags := λ _ s, (None, s);
     getPermissionByID := λ id s, (inr (sample_permission id), s) |}.
End PermissionResource.

(** ** The REST client ([client/client.go]) *)

Module ApiClient.

(** Token and host; the [*http.Client] handle is the network state threaded
    through [RequestAPI]. *)
Record Client := {
  Token : string;
  Host : string
}.

(** [QS] is [None] for the nil map. *)
Record RequestOptions := {
  Path : string;
  Method : string;
  Body : list Byte.byte;
  QS : option (gmap string string)
}.

(** An [*http.Request] as the client fills it in. *)
Record Request := {
  ReqMethod : string;
  ReqURL : string;
  ReqBody : list Byte.byte;
  Header : gmap string string
}.

(** An [*http.Response]; [RespBody] is the outcome of reading the body to
    its end with [ioutil.ReadAll]. *)
Record Response := {
  Status : string;
  StatusCode : Z;
  RespBody : error + list Byte.byte
}.

(** What the Go runtime and [net/http] decide: the order in which [range]
    visits a map (some enumeration of its entries), whether [http.NewRequest]
    accepts a method and a URL, and what the remote end answers. *)
Class Runtime := {
  range_map : gmap string string → list (string * string);
  range_map_perm : ∀ m, range_map m ≡ₚ map_to_list m;
  NewRequest_error : string → string → option error;
  NetState : Type;
  round_trip : Request → NetState → (error + Response) * NetState
}.

Section Client.
Context `{Runtime}.

(** The network: the state of the remote end and the requests put on the
    wire so far. *)
Record Network := { remote : NetState; wire : list Request }.

Definition NewRequest (method url : string) (body : list Byte.byte)
  : error + Request :=
  match NewRequest_error method url with
  | Some err => inl err
  | None => inr {| ReqMethod := method; ReqURL := url; ReqBody := body;
                   Header := ∅ |}
  end.

Definition Header_Set (key val : string) (r : Request) : Request :=
  {| ReqMethod := ReqMethod r; ReqURL := ReqURL r; ReqBody := ReqBody r;
     Header := <[key := val]> (Header r) |}.

(** [client.Client.Do(request)]. *)
Definition Do (request : Request) (n : Network) : (error + Response) * Network :=
  let '(r, s) := round_trip request (remote n) in
  (r, {| remote := s; wire := wire n ++ [request] |}).

(** [strings.Join]. *)
Fixpoint Join (arr : list string) (sep : string) : string :=
  match arr with
  | [] => ""
  | [x] => x
  | x :: rest => x ++ sep ++ Join rest sep
  end.

Definition ToQS (qs : gmap string string) : string :=
  let arr := fold_left (λ (arr : list string) kv, app arr [(fst kv ++ "=" ++ snd kv)%string])
              (range_map qs) [] in
  "?" ++ Join arr "&".

Definition RequestAPI (client : Client) (opt : RequestOptions) (n : Network)
  : (error + list Byte.byte) * Network :=
  let finalURL := Host client ++ Path opt in
  let finalURL :=
    match QS opt with
    | Some qs => finalURL ++ ToQS qs
    | None => finalURL
    end in
  match NewRequest (Method opt) finalURL (Body opt) with
  | inl err => (inl err, n)
  | inr request =>
      let request := Header_Set "Authorization" (Token client) request in
      let request := Header_Set "Content-Type" "application/json; charset=utf-8" request in
      let '(r, n) := Do request n in
      match r with
      | inl err => (inl err, n)
      | inr resp =>
          match RespBody resp with
          | inl _ =>
              (inl ("Failed to read body " ++ pretty (StatusCode resp) ++ " "
                    ++ Status resp), n)
          | inr body =>
              if decide (StatusCode resp ≠ 200%Z)
              then (inl (Status resp ++ ", " ++ string_of_list_byte body), n)
              else (inr body, n)
          end
      end
  end.

(** The requests a call puts on the wire. *)
Definition sent (client : Client) (opt : RequestOptions) (n : Network) : list Request :=
  drop (length (wire n)) (wire (snd (RequestAPI client opt n))).

(** The URL as the interface describes it: host, then path, then, when
    there are query parameters, a question mark and the [key=value] pairs
    joined with ampersands, the keys and values written as they are. *)
Definition query_string (qs : option (gmap string string)) : string :=
  match qs with
  | None => ""
  | Some m => "?" ++ Join ((λ kv, fst kv ++ "=" ++ snd kv) <$> range_map m) "&"
  end.

Definition url_of (client : Client) (opt : RequestOptions) : string :=
  Host client ++ Path opt ++ query_string (QS opt).

(** The request as the interface describes it. *)
Definition request_of (client : Client) (opt : RequestOptions) : Request :=
  {| ReqMethod := Method opt; ReqURL := url_of client opt; ReqBody := Body opt;
     Header := <["Content-Type" := "application/json; charset=utf-8"]>
                 (<["Authorization" := Token client]> ∅) |}.
End Client.

(** [s] occurs in [t]. *)
Definition substring (s t : string) : Prop := ∃ pre post, t = pre ++ s ++ post.

Definition dquote : string := String (ascii_of_nat 34) "".

(** The body [{"message":"not found"}]. *)
Definition not_found_body : string :=
  "{" ++ dquote ++ "message" ++ dquote ++ ":" ++ dquote ++ "not found" ++ dquote ++ "}".

(** A sample runtime: [range] follows [map_to_list], every request is
    accepted, and the remote end answers each request with 404 and the body
    above. *)
#[export] Instance not_found_runtime : Runtime :=
  {| range_map := map_to_list;
     range_map_perm := λ m, reflexivity (map_to_list m);
     NewRequest_error := λ _ _, None;
     NetState := unit;
     round_trip := λ _ s,
       (inr {| Status := "404 Not Found"; StatusCode := 404%Z;
               RespBody := inr (list_byte_of_string not_found_body) |}, s) |}.
End ApiClient.

(** ** The Pipeline resource *)

Module PipelineResource.

(** The client's [Variable] ([Variable] is reserved in Rocq). *)
Record CfVariable := { Key : string; Value : string }.

Record SpecTemplate := {
  Location : string;
  Repo : string;
  Path : string;
  Revision : string;
  Context : string
}.

Record Trigger := {
  TName : string;
  Description : string;
  Type_ : string;
  TRepo : string;
  Events : list string;
  BranchRegex : string;
  ModifiedFilesGlob : string;
  Provider : string;
  Disabled : bool;
  TContext : string;
  TVariables : list CfVariable
}.

Record Labels := { Tags : list string }.

Record Metadata := {
  Name : string;
  ID : string;
  ProjectId : string;
  Labels_ : Labels
}.

Record Spec := {
  Variables : list CfVariable;
  SpecTemplate_ : SpecTemplate;
  Triggers : list Trigger;
  Priority : Z;
  Concurrency : Z
}.

Record Pipeline := {
  Metadata_ : Metadata;
  Spec_ : Spec
}.

(** A [trigger] block as configured: the string attributes that were
    written (keyed by attribute name), and the attributes of other types. *)
Record TriggerBlock := {
  attrs : gmap string string;
  events : list string;
  disabled : option bool;
  variables : gmap string string
}.

Record SpecBlock := {
  priority : option Z;
  concurrency : option Z;
  spec_template : list (gmap string string);
  spec_variables : gmap string string;
  trigger : list TriggerBlock
}.

Record ResourceData := {
  name : string;
  project_id : string;
  tags : gset string;
  spec : list SpecBlock
}.

(** The [Default] entries of the string attributes of the [trigger] block
    in [resourcePipeline]. *)
Definition trigger_defaults : gmap string string :=
  {[ "type" := "git";
     "branch_regex" := "/.*/gi";
     "modified_files_glob" := "";
     "provider" := "github";
     "context" := "github" ]}.

(** The [Default] entries of the [spec_template] block. *)
Definition spec_template_defaults : gmap string string :=
  {[ "location" := "git"; "context" := "github" ]}.

(** Reading a string attribute of an existing block: the configured value,
    else the schema default, else the zero value. *)
Definition read_attr (defaults block : gmap string string) (key : string) : string :=
  match block !! key with
  | Some v => v
  | None => default "" (defaults !! key)
  end.

(** [d.Get("spec.0.trigger.<idx>.<key>").(string)]. *)
Definition Get_trigger_string (d : ResourceData) (idx : nat) (key : string) : string :=
  match spec d !! 0%nat ≫= λ s, trigger s !! idx with
  | Some t => read_attr trigger_defaults (attrs t) key
  | None => ""
  end.

(** [d.Get("spec.0.trigger.<idx>.events")]. *)
Definition Get_trigger_events (d : ResourceData) (idx : nat) : list string :=
  match spec d !! 0%nat ≫= λ s, trigger s !! idx with
  | Some t => events t
  | None => []
  end.

(** [d.Get("spec.0.trigger.<idx>.disabled").(bool)], default [false]. *)
Definition Get_trigger_disabled (d : ResourceData) (idx : nat) : bool :=
  match spec d !! 0%nat ≫= λ s, trigger s !! idx with
  | Some t => default false (disabled t)
  | None => false
  end.

(** [d.Get("spec.0.trigger.<idx>.variables")]. *)
Definition Get_trigger_variables (d : ResourceData) (idx : nat) : gmap string string :=
  match spec d !! 0%nat ≫= λ s, trigger s !! idx with
  | Some t => variables t
  | None => ∅
  end.

(** [d.Get("spec.0.spec_template.0.<key>").(string)]. *)
Definition Get_spec_template_string (d : ResourceData) (key : string) : string :=
  match spec d !! 0%nat ≫= λ s, spec_template s !! 0%nat with
  | Some b => read_attr spec_template_defaults b key
  | None => ""
  end.

(** [d.Get("spec.0.priority").(int)] and [d.Get("spec.0.concurrency").(int)],
    both with default 0. *)
Definition Get_priority (d : ResourceData) : Z :=
  default 0%Z (spec d !! 0%nat ≫= priority).
Definition Get_concurrency (d : ResourceData) : Z :=
  default 0%Z (spec d !! 0%nat ≫= concurrency).

(** [d.Get("spec.0.trigger").([]interface{})]. *)
Definition Get_triggers (d : ResourceData) : list TriggerBlock :=
  match spec d !! 0%nat with Some s => trigger s | None => [] end.

(** Modelled from the spec: the package helper [convertStringArr] is not
    among the sources; it turns a [[]interface{}] of strings into a
    [[]string], element by element.  Both are lists of strings here. *)
Definition convertStringArr (l : list string) : list string := l.

(** The [SetVariables] methods of the client's [Pipeline] and [Trigger] are
    not among the sources: the variables made from a map of strings. *)
Class ClientTypes := {
  variables_of : gmap string string → list CfVariable
}.

Section Mapper.
Context `{ClientTypes}.

Definition Pipeline_SetVariables (variables : gmap string string) (p : Pipeline) : Pipeline :=
  {| Metadata_ := Metadata_ p;
     Spec_ := {| Variables := variables_of variables;
                 SpecTemplate_ := SpecTemplate_ (Spec_ p);
                 Triggers := Triggers (Spec_ p);
                 Priority := Priority (Spec_ p);
                 Concurrency := Concurrency (Spec_ p) |} |}.

Definition Trigger_SetVariables (variables : gmap string string) (t : Trigger) : Trigger :=
  {| TName := TName t; Description := Description t; Type_ := Type_ t;
     TRepo := TRepo t; Events := Events t; BranchRegex := BranchRegex t;
     ModifiedFilesGlob := ModifiedFilesGlob t; Provider := Provider t;
     Disabled := Disabled t; TContext := TContext t;
     TVariables := variables_of variables |}.

Definition append_trigger (t : Trigger) (p : Pipeline) : Pipeline :=
  {| Metadata_ := Metadata_ p;
     Spec_ := {| Variables := Variables (Spec_ p);
                 SpecTemplate_ := SpecTemplate_ (Spec_ p);
                 Triggers := Triggers (Spec_ p) ++ [t];
                 Priority := Priority (Spec_ p);
                 Concurrency := Concurrency (Spec_ p) |} |}.

(** The body of the loop over the trigger indices. *)
Definition map_trigger (d : ResourceData) (idx : nat) : Trigger :=
  let events := Get_trigger_events d idx in
  let codefreshTrigger :=
    {| TName := Get_trigger_string d idx "name";
       Description := Get_trigger_string d idx "description";
       Type_ := Get_trigger_string d idx "type";
       TRepo := Get_trigger_string d idx "repo";
       BranchRegex := Get_trigger_string d idx "branch_regex";
       ModifiedFilesGlob := Get_trigger_string d idx "modified_files_glob";
       Provider := Get_trigger_string d idx "provider";
       Disabled := Get_trigger_disabled d idx;
       TContext := Get_trigger_string d idx "context";
       Events := convertStringArr events;
       TVariables := [] |} in
  Trigger_SetVariables (Get_trigger_variables d idx) codefreshTrigger.

Definition mapResourceToPipeline (d : ResourceData) : Pipeline :=
  let tags := elements (tags d) in
  let pipeline :=
    {| Metadata_ := {| Name := name d;
                       ID := "";
                       ProjectId := project_id d;
                       Labels_ := {| Tags := convertStringArr tags |} |};
       Spec_ := {| Variables := [];
                   SpecTemplate_ :=
                     {| Location := Get_spec_template_string d "location";
                        Repo := Get_spec_template_string d "repo";
                        Path := Get_spec_template_string d "path";
                        Revision := Get_spec_template_string d "revision";
                        Context := Get_spec_template_string d "context" |};
                   Triggers := [];
                   Priority := Get_priority d;
                   Concurrency := Get_concurrency d |} |} in
  let pipeline := Pipeline_SetVariables
                    (default ∅ (spec_variables <$> spec d !! 0%nat)) pipeline in
  let triggers := Get_triggers d in
  fold_left (λ pipeline idx, append_trigger (map_trigger d idx) pipeline)
            (seq 0 (length triggers)) pipeline.
End Mapper.

(** A sample of the client types: one variable per entry of the map. *)
#[export] Instance sample_client_types : ClientTypes :=
  {| variables_of := λ m, (λ kv, {| Key := fst kv; Value := snd kv |}) <$> map_to_list m |}.
End PipelineResource.

(** ** The hooks of the Context resource *)

Module ContextHooks.
Import ContextResource.

(** The Context methods of [cfclient.Client] are not among the sources.  The
    remote service is any state machine answering the four calls; a call
    that reports no error hands back a Context. *)
Class ContextService := {
  ContextState : Type;
  createContext : Context → ContextState → (error + Context) * ContextState;
  getContext : string → bool → ContextState → (error + Context) * ContextState;
  updateContext : Context → ContextState → (error + Context) * ContextState;
  deleteContext : string → ContextState → option error * ContextState
}.

Inductive Call :=
| CallCreateContext (c : Context)
| CallGetContext (name : string) (decrypt : bool)
| CallUpdateContext (c : Context)
| CallDeleteContext (name : string).

(** The resource data together with the identifier the host keeps for it
    ([d.Id()], [d.SetId]). *)
Record Resource := { Id : string; data : ResourceData }.

Definition SetId (id : string) (r : Resource) : Resource :=
  {| Id := id; data := data r |}.

Section Hooks.
Context `{YamlCodec} `{Helpers} `{ContextService}.

Definition getConflictingContexts (context : string) : list string :=
  let normalizedContext := MustNormalizeFieldName context in
  fold_left
    (λ (conflictingTypes : list string) value,
       let normlizedValue := MustNormalizeFieldName value in
       if decide (normlizedValue ≠ normalizedContext)
       then app conflictingTypes ["spec.0." ++ normlizedValue]
       else conflictingTypes)
    supportedContextType [].

Record World := { service : ContextState; calls : list Call }.

Definition call {A} (c : Call) (handler : ContextState → A * ContextState)
    (w : World) : A * World :=
  let '(a, s) := handler (service w) in
  (a, {| service := s; calls := app (calls w) [c] |}).

Definition resourceContextRead (d : Resource) (w : World)
  : (Resource * option error) * World :=
  let contextName := Id d in
  let currentContextType := getContextTypeFromResource (data d) in
  let setExplicitDecrypt :=
    contains encryptedContextTypes currentContextType && decrypt_spec (data d) in
  if decide (contextName = "") then ((SetId "" d, None), w)
  else
    let '(r, w) := call (CallGetContext contextName setExplicitDecrypt)
                        (getContext contextName setExplicitDecrypt) w in
    match r with
    | inl err => ((d, Some err), w)
    | inr context =>
        let '(data', err) := mapContextToResource context (data d) in
        (({| Id := Id d; data := data' |}, err), w)
    end.

Definition resourceContextCreate (d : Resource) (w : World)
  : (Resource * option error) * World :=
  let '(r, w) := call (CallCreateContext (mapResourceToContext (data d)))
                      (createContext (mapResourceToContext (data d))) w in
  match r with
  | inl err => ((d, Some err), w)
  | inr resp => resourceContextRead (SetId (Name (Metadata resp)) d) w
  end.

Definition resourceContextUpdate (d : Resource) (w : World)
  : (Resource * option error) * World :=
  let context := mapResourceToContext (data d) in
  let context := {| Metadata := {| Name := Id d |}; Spec := Spec context |} in
  let '(r, w) := call (CallUpdateContext context) (updateContext context) w in
  match r with
  | inl err => ((d, Some err), w)
  | inr _ => resourceContextRead d w
  end.

Definition resourceContextDelete (d : Resource) (w : World)
  : option error * World :=
  call (CallDeleteContext (Id d)) (deleteContext (Id d)) w.

(** The calls a hook adds to the log. *)
Definition calls_of {A} (c : World → A * World) (w : World) : list Call :=
  drop (length (calls w)) (calls (snd (c w))).
End Hooks.

(** A sample service that answers every lookup with a secret context whose
    values are masked. *)
Definition masked_secret (name : string) : Context :=
  {| Metadata := {| Name := name |};
     Spec := {| Type_ := contextSecret;
                Data := Some {[ "k" := VString "*****" ]} |} |}.

#[export] Instance masking_service : ContextService :=
  {| ContextState := unit;
     createContext := λ c s, (inr c, s);
     getContext := λ name _ s, (inr (masked_secret name), s);
     updateContext := λ c s, (inr c, s);
     deleteContext := λ _ s, (None, s) |}.
End ContextHooks.

(** ** Pipeline: flattening and hooks *)

Module PipelineHooks.
Import PipelineResource.

#[global] Instance SpecTemplate_eq_dec : EqDecision SpecTemplate.
Proof. solve_decision. Defined.

(** The package helper [convertVariables] is not among the sources: the
    value stored under [variables] for a list of client variables. *)
Class FlattenHelpers := {
  convertVariables : list CfVariable → value
}.

(** The Pipeline methods of the client are not among the sources.  A call
    that reports no error hands back a Pipeline. *)
Class PipelineService := {
  PipelineState : Type;
  createPipeline : Pipeline → PipelineState → (error + Pipeline) * PipelineState;
  updatePipeline : Pipeline → PipelineState → (error + Pipeline) * PipelineState;
  deletePipeline : string → PipelineState → option error * PipelineState
}.

Inductive Call :=
| CallCreatePipeline (p : Pipeline)
| CallUpdatePipeline (p : Pipeline)
| CallDeletePipeline (id : string).

Record Resource := { Id : string; data : ResourceData }.

Definition SetId (id : string) (r : Resource) : Resource :=
  {| Id := id; data := data r |}.

Section Flatten.
Context `{FlattenHelpers}.

Definition flattenSpecTemplate (spec : SpecTemplate) : list (gmap string value) :=
  [ {[ "location" := VString (Location spec);
       "repo" := VString (Repo spec);
       "context" := VString (Context spec);
       "revision" := VString (Revision spec);
       "path" := VString (Path spec) ]} ].

(** The map written for one trigger, by successive assignments. *)
Definition flattenTrigger (trigger : Trigger) : gmap string value :=
  let m : gmap string value := ∅ in
  let m := <["name" := VString (TName trigger)]> m in
  let m := <["description" := VString (Description trigger)]> m in
  let m := <["context" := VString (TContext trigger)]> m in
  let m := <["repo" := VString (TRepo trigger)]> m in
  let m := <["branch_regex" := VString (BranchRegex trigger)]> m in
  let m := <["modified_files_glob" := VString (ModifiedFilesGlob trigger)]> m in
  let m := <["disabled" := VBool (Disabled trigger)]> m in
  let m := <["provider" := VString (Provider trigger)]> m in
  let m := <["type" := VString (Type_ trigger)]> m in
  let m := <["events" := VList (VString <$> Events trigger)]> m in
  let m := <["variables" := convertVariables (TVariables trigger)]> m in
  m.

(** [res[i] = m] for every index of the slice. *)
Definition flattenTriggers (triggers : list Trigger) : list (gmap string value) :=
  flattenTrigger <$> triggers.

Definition zero_SpecTemplate : SpecTemplate :=
  {| Location := ""; Repo := ""; Path := ""; Revision := ""; Context := "" |}.

(** The one map of the list [flattenSpec] returns. *)
Definition flattenSpec_map (spec : Spec) : gmap string value :=
  let m : gmap string value := ∅ in
  let m :=
    if (0 <? length (Triggers spec))%nat
    then <["trigger" := VList (VMap <$> flattenTriggers (Triggers spec))]> m
    else m in
  let m :=
    if decide (SpecTemplate_ spec ≠ zero_SpecTemplate)
    then <["spec_template" := VList (VMap <$> flattenSpecTemplate (SpecTemplate_ spec))]> m
    else m in
  let m :=
    if decide (length (Variables spec) ≠ 0%nat)
    then <["variables" := convertVariables (Variables spec)]> m
    else m in
  m.

Definition flattenSpec (spec : Spec) : list (gmap string value) :=
  [flattenSpec_map spec].
End Flatten.

Section Hooks.
Context `{ClientTypes} `{PipelineService}.

Record World := { service : PipelineState; calls : list Call }.

Definition call {A} (c : Call) (handler : PipelineState → A * PipelineState)
    (w : World) : A * World :=
  let '(a, s) := handler (service w) in
  (a, {| service := s; calls := app (calls w) [c] |}).

Definition Pipeline_SetID (id : string) (p : Pipeline) : Pipeline :=
  {| Metadata_ := {| Name := Name (Metadata_ p); ID := id;
                     ProjectId := ProjectId (Metadata_ p);
                     Labels_ := Labels_ (Metadata_ p) |};
     Spec_ := Spec_ p |}.

Definition resourcePipelineCreate (d : Resource) (w : World)
  : (Resource * option error) * World :=
  let pipeline := mapResourceToPipeline (data d) in
  let '(r, w) := call (CallCreatePipeline pipeline) (createPipeline pipeline) w in
  match r with
  | inl err => ((d, Some err), w)
  | inr resp => ((SetId (ID (Metadata_ resp)) d, None), w)
  end.

Definition resourcePipelineUpdate (d : Resource) (w : World)
  : (Resource * option error) * World :=
  let pipeline := mapResourceToPipeline (data d) in
  let pipeline := Pipeline_SetID (Id d) pipeline in
  let '(r, w) := call (CallUpdatePipeline pipeline) (updatePipeline pipeline) w in
  match r with
  | inl err => ((d, Some err), w)
  | inr _ => ((d, None), w)
  end.

Definition resourcePipelineDelete (d : Resource) (w : World)
  : (Resource * option error) * World :=
  let '(r, w) := call (CallDeletePipeline (Id d)) (deletePipeline (Id d)) w in
  ((d, r), w).

Definition calls_of {A} (c : World → A * World) (w : World) : list Call :=
  drop (length (calls w)) (calls (snd (c w))).
End Hooks.

(** A sample of the flattening helper and of the service: variables become
    a map from key to value; the service numbers what it creates. *)
#[export] Instance sample_flatten_helpers : FlattenHelpers :=
  {| convertVariables := λ vs,
       VMap (list_to_map ((λ v, (Key v, VString (Value v))) <$> vs)) |}.

#[export] Instance numbering_service : PipelineService :=
  {| PipelineState := unit;
     createPipeline := λ p s,
       (inr {| Metadata_ := {| Name := Name (Metadata_ p); ID := "5e1";
                               ProjectId := ProjectId (Metadata_ p);
                               Labels_ := Labels_ (Metadata_ p) |};
               Spec_ := Spec_ p |}, s);
     updatePipeline := λ p s, (inr p, s);
     deletePipeline := λ _ s, (None, s) |}.
End PipelineHooks.

(** ** A second sample of the permission service *)

Module PermissionSamples.
Import PermissionResource.

(** A service that answers a create with neither a Permission nor an
    error, refuses tag updates and finds nothing. *)
Definition unhelpful_service : Service :=
  {| ServiceState := unit;
     createPermission := λ _ s, (inr None, s);
     deletePermission := λ _ s, (None, s);
     updatePermissionTags := λ _ s, (Some "500 Internal Server Error, ", s);
     getPermissionByID := λ _ s, (inl "404 Not Found, ", s) |}.
End PermissionSamples.

(** ** A second sample of the runtime *)

Module ApiClientSamples.
Import ApiClient.

(** Every request is answered with status 200 and a body that breaks off
    while it is read. *)
Definition broken_body_runtime : Runtime :=
  {| range_map := map_to_list;
     range_map_perm := λ m, reflexivity (map_to_list m);
     NewRequest_error := λ _ _, None;
     NetState := unit;
     round_trip := λ _ s,
       (inr {| Status := "200 OK"; StatusCode := 200%Z;
               RespBody := inl "unexpected EOF" |}, s) |}.

(** [http.NewRequest] refuses a method that holds a space; the remote end
    would answer 200 with an empty body. *)
Definition strict_method_runtime : Runtime :=
  {| range_map := map_to_list;
     range_map_perm := λ m, reflexivity (map_to_list m);
     NewRequest_error := λ method _,
       if decide (method = "BAD METHOD")
       then Some ("net/http: invalid method " ++ dquote ++ method ++ dquote)
       else None;
     NetState := unit;
     round_trip := λ _ s,
       (inr {| Status := "200 OK"; StatusCode := 200%Z; RespBody := inr [] |}, s) |}.
End ApiClientSamples.

(** ** The provider ([codefresh/provider.go]) *)

Module Provider.
Import ApiClient.

(** The process environment; [os.Getenv] gives the empty string for a
    variable that is not set. *)
Definition Getenv (env : gmap string string) (key : string) : string :=
  default "" (env !! key).

(** The [DefaultFunc] of [api_url]. *)
Definition api_url_default (env : gmap string string) : string :=
  let url := Getenv env "CODEFRESH_API_URL" in
  if decide (url ≠ "") then url else "https://g.codefresh.io/api".

(** [schema.EnvDefaultFunc(k, dv)] of the host: the variable when it is not
    empty, else [dv]. *)
Definition EnvDefaultFunc (k dv : string) (env : gmap string string) : string :=
  let v := Getenv env k in
  if decide (v ≠ "") then v else dv.

(** The provider block as configured; [d.Get] on an attribute left out
    gives the value of its default function. *)
Record ProviderData := {
  api_url : option string;
  token : option string
}.

Definition NewClient (hostname token : string) : Client :=
  {| Host := hostname; Token := token |}.

Definition configureProvider (env : gmap string string) (d : ProviderData) : Client :=
  let apiURL := default (api_url_default env) (api_url d) in
  let token := default (EnvDefaultFunc "CODEFRESH_API_KEY" "" env) (token d) in
  NewClient apiURL token.
End Provider.

(** * Properties *)

(** ** Context: variant detection and the two mappers *)

Module ContextProofs.
Import ContextResource.

Lemma detector_spec_only d d' :
  spec d = spec d' → getContextTypeFromResource d = getContextTypeFromResource d'.
Proof.
  intros E. unfold getContextTypeFromResource, GetOk_map, GetOk_string, GetOk_list, GetOk.
  by rewrite E.
Qed.

Lemma detector_is_first_populated d :
  getContextTypeFromResource d = default "" (find (populated d) contextTypes).
Proof.
  unfold getContextTypeFromResource, contextTypes, populated. simpl.
  repeat (case_decide; try discriminate).
  repeat (destruct (snd _); [reflexivity|]). reflexivity.
Qed.

Lemma find_unique {A} `{EqDecision A} (f : A → bool) (l : list A) (t : A) :
  t ∈ l → f t = true → (∀ t', t' ∈ l → t' ≠ t → f t' = false) →
  find f l = Some t.
Proof.
  induction l as [|x l IH]; intros Hin Ht Ho.
  - by apply elem_of_nil in Hin.
  - simpl. destruct (decide (x = t)) as [->|Hne].
    + by rewrite Ht.
    + rewrite (Ho x) by (done || left).
      apply IH; [|done|].
      * apply elem_of_cons in Hin as [->|]; done.
      * intros t' Hin' ?. apply Ho; [by right|done].
Qed.

Lemma find_none {A} (f : A → bool) (l : list A) :
  (∀ t, t ∈ l → f t = false) → find f l = None.
Proof.
  induction l as [|x l IH]; intros Ho; [done|].
  simpl. rewrite (Ho x) by left. apply IH. intros t ?. apply Ho. by right.
Qed.

(** C3: when exactly one of the seven variants is populated the detector
    returns its type; when none is populated it returns the empty string;
    in general it returns the first populated variant in the order config,
    secret, yaml, secret-yaml, storage.gc, storage.s3, storage.azuref. *)
Theorem C3_variant_detector :
  (∀ d t, t ∈ contextTypes → populated d t = true →
          (∀ t', t' ∈ contextTypes → t' ≠ t → populated d t' = false) →
          getContextTypeFromResource d = t)
  ∧ (∀ d, (∀ t, t ∈ contextTypes → populated d t = false) →
          getContextTypeFromResource d = "")
  ∧ (∀ d, getContextTypeFromResource d
          = default "" (find (populated d) contextTypes))
  ∧ contextTypes = ["config"; "secret"; "yaml"; "secret-yaml";
                    "storage.gc"; "storage.s3"; "storage.azuref"].
Proof.
  repeat split.
  - intros d t Hin Ht Ho. rewrite detector_is_first_populated.
    by rewrite (find_unique _ _ t).
  - intros d Ho. rewrite detector_is_first_populated. by rewrite find_none.
  - apply detector_is_first_populated.
Qed.

(** The detector on a tree that populates only the YAML variant, on the
    empty tree, and on a tree that populates both secret and storage.s3. *)
Lemma C3_variant_detector_witness :
  getContextTypeFromResource (single_config "ctx" true (YamlData "a: b")) = "yaml"
  ∧ getContextTypeFromResource {| name := "ctx"; decrypt_spec := true; spec := [] |} = ""
  ∧ getContextTypeFromResource
      {| name := "ctx"; decrypt_spec := true;
         spec := [ {| config := []; secret := [{[ "k" := "v" ]}]; yaml := [];
                      secret_yaml := []; storage_gc := [];
                      storage_s3 := [[VString "x"]]; storage_azuref := [] |} ] |}
    = "secret".
Proof.
  destruct C3_variant_detector as (Hone & Hnone & Hfirst & _).
  split; [|split].
  - apply Hone.
    + unfold contextTypes. set_solver.
    + reflexivity.
    + intros t' Hin Hne. unfold contextTypes in Hin.
      repeat (apply elem_of_cons in Hin as [->|Hin]; [try done; vm_compute; reflexivity|]).
      by apply elem_of_nil in Hin.
  - apply Hnone. intros t _. unfold populated.
    repeat case_decide; reflexivity.
  - rewrite Hfirst. vm_compute. reflexivity.
Defined.

(** C2: when the variant found in the resource data is one of the encrypted
    kinds and [decrypt_spec] is false, [mapContextToResource] leaves the
    stored [spec] as it was and returns no error. *)
Theorem C2_encrypted_spec_untouched `{YamlCodec} `{Helpers}
    (context : Context) (d : ResourceData) :
  contains encryptedContextTypes (getContextTypeFromResource d) = true →
  decrypt_spec d = false →
  spec (fst (mapContextToResource context d)) = spec d
  ∧ decrypt_spec (fst (mapContextToResource context d)) = false
  ∧ snd (mapContextToResource context d) = None.
Proof.
  intros Henc Hdec. unfold mapContextToResource. cbn [decrypt_spec].
  rewrite Hdec.
  erewrite (detector_spec_only _ d) by reflexivity.
  rewrite Henc. simpl. auto.
Qed.

Lemma C2_encrypted_spec_untouched_witness :
  let d := single_config "ctx" false (SecretData {[ "k" := "v" ]}) in
  let context :=
    {| Metadata := {| Name := "ctx" |};
       Spec := {| Type_ := contextSecret;
                  Data := Some {[ "k" := VString "*****" ]} |} |} in
  spec (fst (mapContextToResource context d)) = spec d
  ∧ decrypt_spec (fst (mapContextToResource context d)) = false
  ∧ snd (mapContextToResource context d) = None.
Proof.
  intros d context. apply (C2_encrypted_spec_untouched context d); reflexivity.
Defined.

(** C10: when the tree selects the yaml (or the secret-yaml) variant and its
    data string does not parse, [mapResourceToContext] still returns a
    Context, with the variant's type and nil data; the parse error is
    dropped. *)
Theorem C10_yaml_error_discarded `{YamlCodec} `{Helpers} (d : ResourceData) (e : error) :
  (getContextTypeFromResource d = contextYaml
   ∧ yaml_Unmarshal (list_byte_of_string (fst (GetOk_string yaml d))) = inl e)
  ∨ (getContextTypeFromResource d = contextSecretYaml
     ∧ yaml_Unmarshal (list_byte_of_string (fst (GetOk_string secret_yaml d))) = inl e) →
  mapResourceToContext d
  = {| Metadata := {| Name := name d |};
       Spec := {| Type_ := getContextTypeFromResource d; Data := None |} |}.
Proof.
  unfold mapResourceToContext, getContextTypeFromResource, unmarshal_ignoring_error.
  intros [[Ht He]|[Ht He]]; revert Ht;
    repeat (destruct (snd _); [try discriminate|]); try discriminate;
    intros _; by rewrite He.
Qed.

Lemma C10_yaml_error_discarded_witness :
  mapResourceToContext (single_config "ctx" true (YamlData "["))
  = {| Metadata := {| Name := "ctx" |};
       Spec := {| Type_ := "yaml"; Data := None |} |}.
Proof.
  apply (C10_yaml_error_discarded (single_config "ctx" true (YamlData "["))
           "yaml: did not find expected node content").
  left. split; reflexivity.
Defined.

Lemma set_string_map_strings (m : gmap string string) :
  set_string_map (VMap (VString <$> m)) = inr m.
Proof.
  unfold set_string_map. rewrite decide_True.
  - f_equal. apply map_eq. intros k.
    rewrite lookup_omap, lookup_fmap. by destruct (m !! k).
  - apply map_Forall_fmap. by intros k x _.
Qed.

Lemma NoDup_fmap_inj {A B} (f : A → B) (l : list A) x y :
  NoDup (f <$> l) → x ∈ l → y ∈ l → f x = f y → x = y.
Proof.
  induction l as [|a l IH]; intros Hnd Hx Hy E.
  - by apply elem_of_nil in Hx.
  - rewrite fmap_cons in Hnd. apply NoDup_cons in Hnd as [Ha Hnd].
    apply elem_of_cons in Hx as [->|Hx]; apply elem_of_cons in Hy as [->|Hy];
      try done.
    + exfalso. apply Ha. rewrite E. by apply list_elem_of_fmap_2.
    + exfalso. apply Ha. rewrite <- E. by apply list_elem_of_fmap_2.
    + by apply IH.
Qed.

Section Keys.
Context `{Helpers}.
Hypothesis keys_distinct : NoDup (MustNormalizeFieldName <$> contextTypes).

Lemma key_inj t t' :
  t ∈ contextTypes → t' ∈ contextTypes →
  MustNormalizeFieldName t = MustNormalizeFieldName t' → t = t'.
Proof.
  intros Ht Ht' E.
  by apply (NoDup_fmap_inj MustNormalizeFieldName contextTypes).
Qed.

Lemma lookup_key (t t' : string) (v : value) :
  t ∈ contextTypes → t' ∈ contextTypes →
  default VNil (({[ MustNormalizeFieldName t := v ]} : gmap string value)
                  !! MustNormalizeFieldName t')
  = if decide (t' = t) then v else VNil.
Proof.
  intros Ht Ht'. case_decide as E.
  - subst. by rewrite lookup_singleton_eq.
  - rewrite lookup_singleton_ne; [done|].
    intros E'. apply E. symmetry. by apply key_inj.
Qed.

(** [d.Set] on the flattened form of a single variant fills the slot of that
    variant and leaves the six others empty. *)
Lemma set_spec_block_single (t : string) (v : value) :
  t ∈ contextTypes →
  set_spec_block (VMap {[ MustNormalizeFieldName t := v ]})
  = (c ← set_data_blocks set_string_map (if decide (contextConfig = t) then v else VNil);
     s ← set_data_blocks set_string_map (if decide (contextSecret = t) then v else VNil);
     y ← set_data_blocks set_string (if decide (contextYaml = t) then v else VNil);
     sy ← set_data_blocks set_string (if decide (contextSecretYaml = t) then v else VNil);
     gc ← set_data_blocks set_list (if decide (contextGoogleStorage = t) then v else VNil);
     s3 ← set_data_blocks set_list (if decide (contextS3Storage = t) then v else VNil);
     az ← set_data_blocks set_list (if decide (contextAzureStorage = t) then v else VNil);
     inr {| config := c; secret := s; yaml := y; secret_yaml := sy;
            storage_gc := gc; storage_s3 := s3; storage_azuref := az |}).
Proof.
  intros Ht. unfold set_spec_block.
  rewrite !lookup_key by (done || (unfold contextTypes; repeat constructor)).
  reflexivity.
Qed.
End Keys.


Lemma mapper_single `{YamlCodec} `{Helpers} (n : string) (dec : bool) (v : Variant) :
  variant_nonzero v = true →
  mapResourceToContext (single_config n dec v)
  = {| Metadata := {| Name := n |};
       Spec := {| Type_ := variant_type v; Data := variant_payload v |} |}.
Proof.
  intros Hnz. unfold mapResourceToContext.
  destruct v; cbn in *; rewrite ?Hnz; reflexivity.
Qed.

(** Resolve the tests on the context type once it is a known constant. *)
Ltac pick_case :=
  repeat (let E := fresh "E" in
          case_decide as E;
          [ try solve [exfalso; clear -E; intuition discriminate]
          | try solve [exfalso; apply E; clear; first [reflexivity | by left | by right]] ];
          clear E).

Lemma set_data_blocks_nil {A} (f : value → error + A) :
  set_data_blocks f VNil = inr [].
Proof. reflexivity. Qed.

Lemma set_data_blocks_data {A} (f : value → error + A) (x : value) (a : A) :
  f x = inr a →
  set_data_blocks f (VList [VMap {[ "data" := x ]}]) = inr [a].
Proof.
  intros E. unfold set_data_blocks, mapE.
  rewrite lookup_singleton_eq. simpl. by rewrite E.
Qed.



End ContextProofs.

(** ** Permission: validation, update and default tags *)

Module PermissionProofs.
Import PermissionResource.
Local Open Scope list_scope.

(** C5: on a change that touches [resource] or [related_resource], a
    non-empty [related_resource] with a [resource] other than pipeline is
    rejected; on a change that touches [resource] or [action], an action
    among run, approve, debug with a [resource] other than pipeline is
    rejected; action run with resource pipeline passes.  The check is a
    function of the diff alone: it has no access to the service. *)
Theorem C5_custom_diff (diff : ResourceData) :
  (HasChanges diff ["resource"; "related_resource"] = true →
   related_resource (planned diff) ≠ "" →
   resource (planned diff) ≠ "pipeline" →
   resourcePermissionCustomDiff diff
   = Some "related_resource is only valid when resource is 'pipeline'")
  ∧ (HasChanges diff ["resource"; "action"] = true →
     action (planned diff) ∈ ["run"; "approve"; "debug"] →
     resource (planned diff) ≠ "pipeline" →
     ∃ err, resourcePermissionCustomDiff diff = Some err)
  ∧ (action (planned diff) = "run" →
     resource (planned diff) = "pipeline" →
     resourcePermissionCustomDiff diff = None).
Proof.
  unfold resourcePermissionCustomDiff, funk_Contains. repeat split.
  - intros -> Hrel Hres.
    rewrite !bool_decide_eq_false_2 by done. reflexivity.
  - intros -> Hact Hres.
    rewrite (bool_decide_eq_true_2 _ Hact).
    rewrite (bool_decide_eq_false_2 _ Hres). simpl.
    repeat match goal with |- context [if ?b then _ else _] => destruct b end;
      eauto.
  - intros Hact Hres.
    rewrite (bool_decide_eq_true_2 _ Hres). simpl.
    rewrite !andb_false_r.
    repeat match goal with |- context [if ?b then _ else _] => destruct b end;
      reflexivity.
Qed.

Lemma C5_custom_diff_witness :
  resourcePermissionCustomDiff
    {| Id := "p1";
       prior := sample_fields "t1" "read" "pipeline" "" ∅;
       planned := sample_fields "t1" "read" "cluster" "project" ∅ |}
  = Some "related_resource is only valid when resource is 'pipeline'"
  ∧ (∃ err, resourcePermissionCustomDiff
              {| Id := "p1";
                 prior := sample_fields "t1" "read" "cluster" "" ∅;
                 planned := sample_fields "t1" "run" "cluster" "" ∅ |}
            = Some err)
  ∧ resourcePermissionCustomDiff
      {| Id := "p1";
         prior := sample_fields "t1" "read" "pipeline" "" ∅;
         planned := sample_fields "t1" "run" "pipeline" "" ∅ |}
    = None.
Proof.
  split; [|split].
  - apply C5_custom_diff; [reflexivity|discriminate|discriminate].
  - apply C5_custom_diff; [reflexivity|simpl; set_solver|discriminate].
  - apply C5_custom_diff; reflexivity.
Defined.

Section Traces.
Context `{Service}.

Lemma call_calls {A} (c : Call) (h : ServiceState → A * ServiceState) (w : World) :
  calls (snd (call c h w)) = calls w ++ [c].
Proof. unfold call. by destruct (h (service w)). Qed.

Lemma call_result {A} (c : Call) (h : ServiceState → A * ServiceState) (w : World) :
  fst (call c h w) = fst (h (service w))
  ∧ service (snd (call c h w)) = snd (h (service w)).
Proof. unfold call. by destruct (h (service w)). Qed.

Lemma calls_of_app {A} (c : API A) (w : World) (l : list Call) :
  calls (snd (c w)) = calls w ++ l → calls_of c w = l.
Proof. intros E. unfold calls_of. rewrite E. apply drop_app_length. Qed.

Lemma bind_eq {A B} (c : API A) (k : A → API B) (w : World) :
  (c ≫= k) w = k (fst (c w)) (snd (c w)).
Proof. unfold mbind, API_bind, bind. by destruct (c w). Qed.

Lemma read_calls (d : ResourceData) (w : World) :
  calls (snd (resourcePermissionRead d w))
  = calls w ++ (if decide (Id d = "") then [] else [CallGetPermissionByID (Id d)]).
Proof.
  unfold resourcePermissionRead. case_decide.
  - simpl. by rewrite app_nil_r.
  - rewrite bind_eq. unfold GetPermissionByID.
    destruct (fst (call _ _ w)); simpl; apply call_calls.
Qed.

(** The calls of an update that changes one of the key attributes: the
    delete, then the create, then at most the read that follows a
    successful create. *)
Lemma update_swap_calls (d : ResourceData) (w : World) :
  HasChanges d ["team"; "action"; "related_resource"; "resource"; "rule_type"] = true →
  ∃ reads,
    calls (snd (resourcePermissionUpdate d w))
    = calls w ++ CallDeletePermission (Id d)
              :: CallCreatePermission (mapResourceToPermission d) :: reads
    ∧ forallb is_read_call reads = true.
Proof.
  intros Hch. unfold resourcePermissionUpdate. rewrite Hch.
  rewrite !bind_eq. unfold resourcePermissionDelete, DeletePermission, CreatePermission.
  set (w1 := snd (call (CallDeletePermission (Id d)) _ w)).
  assert (E1 : calls w1 = calls w ++ [CallDeletePermission (Id d)]) by apply call_calls.
  set (c2 := call (CallCreatePermission (mapResourceToPermission d)) _ w1).
  assert (E2 : calls (snd c2) = calls w1 ++ [CallCreatePermission (mapResourceToPermission d)])
    by apply call_calls.
  destruct (fst c2) as [err|[resp|]].
  - exists []. simpl. rewrite E2, E1, <- app_assoc. done.
  - exists (if decide (ID resp = "") then [] else [CallGetPermissionByID (ID resp)]).
    rewrite read_calls, E2, E1, <- !app_assoc. simpl. split; [done|].
    by case_decide.
  - exists []. simpl. rewrite E2, E1, <- app_assoc. done.
Qed.

Lemma update_tags_calls (d : ResourceData) (w : World) :
  HasChanges d ["team"; "action"; "related_resource"; "resource"; "rule_type"] = false →
  HasChange d "tags" = true →
  ∃ reads,
    calls (snd (resourcePermissionUpdate d w))
    = calls w ++ CallUpdatePermissionTags (mapResourceToPermission d) :: reads
    ∧ forallb is_read_call reads = true.
Proof.
  intros Hch Htags. unfold resourcePermissionUpdate. rewrite Hch, Htags.
  rewrite bind_eq. unfold UpdatePermissionTags.
  set (c1 := call (CallUpdatePermissionTags (mapResourceToPermission d)) _ w).
  assert (E1 : calls (snd c1) = calls w ++ [CallUpdatePermissionTags (mapResourceToPermission d)])
    by apply call_calls.
  destruct (fst c1) as [e|].
  - exists []. simpl. by rewrite E1.
  - exists (if decide (Id d = "") then [] else [CallGetPermissionByID (Id d)]).
    rewrite read_calls, E1, <- app_assoc. simpl. split; [done|]. by case_decide.
Qed.

Lemma HasChanges_exists (d : ResourceData) (keys : list string) :
  HasChanges d keys = true ↔ ∃ k, k ∈ keys ∧ HasChange d k = true.
Proof.
  unfold HasChanges. rewrite existsb_exists.
  split; intros (k & Hk & Hc); exists k; split; try done;
    by apply list_elem_of_In.
Qed.

Lemma HasChanges_none (d : ResourceData) (keys : list string) :
  (∀ k, k ∈ keys → HasChange d k = false) → HasChanges d keys = false.
Proof.
  intros Hno. apply not_true_is_false. rewrite HasChanges_exists.
  intros (k & Hk & Hc). rewrite (Hno k Hk) in Hc. discriminate.
Qed.

(** The outcome of the swap depends on the create and on the read only. *)
Lemma update_swap_result (d : ResourceData) (w : World) :
  HasChanges d replace_keys = true →
  let s1 := snd (deletePermission (Id d) (service w)) in
  let created := createPermission (mapResourceToPermission d) s1 in
  (∀ err, fst created = inl err →
          snd (result_of (resourcePermissionUpdate d) w) = Returned (Some err))
  ∧ (∀ resp perm, fst created = inr (Some resp) → ID resp ≠ "" →
          fst (getPermissionByID (ID resp) (snd created)) = inr perm →
          snd (result_of (resourcePermissionUpdate d) w) = Returned None)
  ∧ (∀ resp err, fst created = inr (Some resp) → ID resp ≠ "" →
          fst (getPermissionByID (ID resp) (snd created)) = inl err →
          snd (result_of (resourcePermissionUpdate d) w) = Returned (Some err)).
Proof.
  intros Hch s1 created. unfold result_of, resourcePermissionUpdate.
  unfold replace_keys in Hch. rewrite Hch. rewrite !bind_eq.
  unfold resourcePermissionDelete, DeletePermission, CreatePermission.
  set (w1 := snd (call (CallDeletePermission (Id d)) _ w)).
  assert (Es1 : service w1 = s1) by apply call_result.
  destruct (call_result (CallCreatePermission (mapResourceToPermission d))
              (createPermission (mapResourceToPermission d)) w1) as [Er Es].
  rewrite Es1 in Er, Es. fold created in Er, Es.
  set (c2 := call (CallCreatePermission (mapResourceToPermission d)) _ w1) in *.
  repeat split.
  - intros err E. rewrite Er, E. reflexivity.
  - intros resp perm E Hid Eg. rewrite Er, E.
    unfold resourcePermissionRead. cbn [SetId Id]. rewrite decide_False by done.
    rewrite bind_eq. unfold GetPermissionByID.
    destruct (call_result (CallGetPermissionByID (ID resp))
                (getPermissionByID (ID resp)) (snd c2)) as [Eg' _].
    rewrite Es in Eg'. rewrite Eg', Eg. reflexivity.
  - intros resp err E Hid Eg. rewrite Er, E.
    unfold resourcePermissionRead. cbn [SetId Id]. rewrite decide_False by done.
    rewrite bind_eq. unfold GetPermissionByID.
    destruct (call_result (CallGetPermissionByID (ID resp))
                (getPermissionByID (ID resp)) (snd c2)) as [Eg' _].
    rewrite Es in Eg'. rewrite Eg', Eg. reflexivity.
Qed.

(** C4: an update in which only [tags] changed makes exactly one
    [UpdatePermissionTags] call, and besides it only the read that follows;
    an update in which one of team, action, related_resource, resource,
    rule_type changed makes one [DeletePermission] call, then one
    [CreatePermission] call, and besides them only the read that follows.
    In that case the create is attempted whatever the delete answered, and
    what the update returns is decided by the create and the read: the
    delete's error is never returned. *)
Theorem C4_permission_update (d : ResourceData) (w : World) :
  ((∀ k, k ∈ replace_keys → HasChange d k = false) →
   HasChange d "tags" = true →
   ∃ reads,
     calls_of (resourcePermissionUpdate d) w
     = CallUpdatePermissionTags (mapResourceToPermission d) :: reads
     ∧ forallb is_read_call reads = true)
  ∧ ((∃ k, k ∈ replace_keys ∧ HasChange d k = true) →
     (∃ reads,
        calls_of (resourcePermissionUpdate d) w
        = CallDeletePermission (Id d)
          :: CallCreatePermission (mapResourceToPermission d) :: reads
        ∧ forallb is_read_call reads = true)
     ∧ let s1 := snd (deletePermission (Id d) (service w)) in
       let created := createPermission (mapResourceToPermission d) s1 in
       (∀ err, fst created = inl err →
               snd (result_of (resourcePermissionUpdate d) w) = Returned (Some err))
       ∧ (∀ resp perm, fst created = inr (Some resp) → ID resp ≠ "" →
               fst (getPermissionByID (ID resp) (snd created)) = inr perm →
               snd (result_of (resourcePermissionUpdate d) w) = Returned None)).
Proof.
  split.
  - intros Hno Htags.
    destruct (update_tags_calls d w (HasChanges_none _ _ Hno) Htags) as (reads & E & Hr).
    exists reads. split; [|done]. by apply calls_of_app.
  - intros Hch. apply HasChanges_exists in Hch. split.
    + destruct (update_swap_calls d w Hch) as (reads & E & Hr).
      exists reads. split; [|done]. by apply calls_of_app.
    + destruct (update_swap_result d w Hch) as (He & Hok & _). split; done.
Qed.
End Traces.

(** An update that changes the team against a service whose delete fails:
    the delete and the create are both made, and the update returns no
    error. *)
Lemma C4_permission_update_witness :
  let d := {| Id := "p1";
              prior := sample_fields "t1" "read" "pipeline" "" ∅;
              planned := sample_fields "t2" "read" "pipeline" "" ∅ |} in
  let w := {| service := tt; calls := [] |} in
  fst (deletePermission (Id d) (service w)) = Some "404 Not Found, permission not found"
  ∧ (∃ reads,
       calls_of (resourcePermissionUpdate d) w
       = CallDeletePermission "p1"
         :: CallCreatePermission (mapResourceToPermission d) :: reads
       ∧ forallb is_read_call reads = true)
  ∧ snd (result_of (resourcePermissionUpdate d) w) = Returned None.
Proof.
  intros d w.
  assert (Hch : ∃ k, k ∈ replace_keys ∧ HasChange d k = true).
  { exists "team". split; [unfold replace_keys; repeat constructor|reflexivity]. }
  destruct (proj2 (C4_permission_update d w) Hch) as (Hcalls & _ & Hok).
  split; [reflexivity|]. split; [exact Hcalls|].
  eapply Hok; [reflexivity|discriminate|reflexivity].
Defined.

Section Outbound.
Context `{Service}.

Lemma create_calls (d : ResourceData) (w : World) :
  ∃ reads,
    calls (snd (resourcePermissionCreate d w))
    = calls w ++ CallCreatePermission (mapResourceToPermission d) :: reads
    ∧ forallb is_read_call reads = true.
Proof.
  unfold resourcePermissionCreate. rewrite bind_eq. unfold CreatePermission.
  set (c1 := call (CallCreatePermission (mapResourceToPermission d)) _ w).
  assert (E1 : calls (snd c1) = calls w ++ [CallCreatePermission (mapResourceToPermission d)])
    by apply call_calls.
  destruct (fst c1) as [err|[resp|]].
  - exists []. simpl. by rewrite E1.
  - exists (if decide (ID resp = "") then [] else [CallGetPermissionByID (ID resp)]).
    rewrite read_calls, E1, <- app_assoc. simpl. split; [done|]. by case_decide.
  - exists []. simpl. by rewrite E1.
Qed.

Lemma reads_send_nothing (reads : list Call) (c : Call) :
  forallb is_read_call reads = true → c ∈ reads → sent_permission c = None.
Proof.
  rewrite forallb_forall. intros Hall Hc.
  apply list_elem_of_In, Hall in Hc. by destruct c.
Qed.

Lemma update_sends (d : ResourceData) (w : World) (c : Call) (p : Permission) :
  c ∈ calls_of (resourcePermissionUpdate d) w →
  sent_permission c = Some p → p = mapResourceToPermission d.
Proof.
  intros Hc Hp.
  destruct (HasChanges d replace_keys) eqn:Hch.
  - destruct (update_swap_calls d w Hch) as (reads & E & Hr).
    rewrite (calls_of_app _ _ _ E) in Hc.
    apply elem_of_cons in Hc as [->|Hc]; [discriminate|].
    apply elem_of_cons in Hc as [->|Hc]; [by injection Hp|].
    rewrite (reads_send_nothing _ _ Hr Hc) in Hp. discriminate.
  - destruct (HasChange d "tags") eqn:Htags.
    + destruct (update_tags_calls d w Hch Htags) as (reads & E & Hr).
      rewrite (calls_of_app _ _ _ E) in Hc.
      apply elem_of_cons in Hc as [->|Hc]; [by injection Hp|].
      rewrite (reads_send_nothing _ _ Hr Hc) in Hp. discriminate.
    + unfold calls_of, resourcePermissionUpdate in Hc.
      unfold replace_keys in Hch. rewrite Hch, Htags, read_calls in Hc.
      rewrite drop_app_length in Hc. case_decide.
      * by apply elem_of_nil in Hc.
      * apply list_elem_of_singleton in Hc as ->. discriminate.
Qed.

Lemma create_sends (d : ResourceData) (w : World) (c : Call) (p : Permission) :
  c ∈ calls_of (resourcePermissionCreate d) w →
  sent_permission c = Some p → p = mapResourceToPermission d.
Proof.
  intros Hc Hp. destruct (create_calls d w) as (reads & E & Hr).
  rewrite (calls_of_app _ _ _ E) in Hc.
  apply elem_of_cons in Hc as [->|Hc]; [by injection Hp|].
  rewrite (reads_send_nothing _ _ Hr Hc) in Hp. discriminate.
Qed.

(** C9: with an empty declared tag set the Permission built by
    [mapResourceToPermission] has the tags [*] and [untagged]; the tags it
    builds are never empty, and so the permission carried by any call of
    the create and update hooks has a non-empty tag list. *)
Theorem C9_default_tags (d : ResourceData) (w : World) :
  (tags (planned d) = ∅ → Tags (mapResourceToPermission d) = ["*"; "untagged"])
  ∧ Tags (mapResourceToPermission d) ≠ []
  ∧ (∀ c p, c ∈ calls_of (resourcePermissionCreate d) w
            ∨ c ∈ calls_of (resourcePermissionUpdate d) w →
            sent_permission c = Some p → Tags p ≠ []).
Proof.
  assert (Hne : Tags (mapResourceToPermission d) ≠ []).
  { unfold mapResourceToPermission, ConvertStringArr. cbn [Tags].
    destruct (elements (tags (planned d))); simpl; discriminate. }
  repeat split; [|done|].
  - intros E. unfold mapResourceToPermission. cbn [Tags].
    rewrite E, elements_empty. reflexivity.
  - intros c p [Hc|Hc] Hp.
    + by rewrite (create_sends d w c p Hc Hp).
    + by rewrite (update_sends d w c p Hc Hp).
Qed.
End Outbound.

Lemma C9_default_tags_witness :
  let d := {| Id := ""; prior := sample_fields "" "" "" "" ∅;
              planned := sample_fields "t1" "read" "pipeline" "" ∅ |} in
  let w := {| service := tt; calls := [] |} in
  Tags (mapResourceToPermission d) = ["*"; "untagged"]
  ∧ calls_of (resourcePermissionCreate d) w
    = [CallCreatePermission (mapResourceToPermission d); CallGetPermissionByID "new"].
Proof.
  intros d w. split.
  - apply (C9_default_tags d w). reflexivity.
  - reflexivity.
Defined.
End PermissionProofs.

(** ** The REST client *)

Module ApiClientProofs.
Import ApiClient.

Lemma append_nil_r (s : string) : s ++ "" = s.
Proof.
  induction s as [|a s IH]; [reflexivity|].
  change (String a (s ++ "") = String a s). by rewrite IH.
Qed.

Lemma append_assoc (a b c : string) : (a ++ b) ++ c = a ++ b ++ c.
Proof.
  induction a as [|x a IH]; [reflexivity|].
  change (String x ((a ++ b) ++ c) = String x (a ++ b ++ c)). by rewrite IH.
Qed.

Lemma substring_l (s t : string) : substring s (s ++ t).
Proof. exists "", t. reflexivity. Qed.

Lemma substring_r (s t : string) : substring t (s ++ t).
Proof. exists s, "". by rewrite append_nil_r. Qed.

Lemma substring_app_r (s a b : string) : substring s b → substring s (a ++ b).
Proof.
  intros (pre & post & ->). exists (a ++ pre), post. by rewrite append_assoc.
Qed.

Section Facts.
Context `{Runtime}.

Lemma fold_append {A} (f : A → string) (l : list A) (acc : list string) :
  fold_left (λ (arr : list string) x, app arr [f x]) l acc = app acc (f <$> l).
Proof.
  revert acc. induction l as [|x l IH]; intros acc; simpl.
  - by rewrite app_nil_r.
  - rewrite IH. by rewrite <- app_assoc.
Qed.

Lemma ToQS_query_string (qs : gmap string string) :
  ToQS qs = query_string (Some qs).
Proof. unfold ToQS, query_string. by rewrite fold_append. Qed.

Lemma final_url (client : Client) (opt : RequestOptions) :
  match QS opt with
  | Some qs => (Host client ++ Path opt) ++ ToQS qs
  | None => Host client ++ Path opt
  end = url_of client opt.
Proof.
  unfold url_of. destruct (QS opt) as [qs|].
  - by rewrite ToQS_query_string, append_assoc.
  - simpl. by rewrite append_nil_r.
Qed.

(** [RequestAPI] in terms of the request it sends. *)
Lemma RequestAPI_unfold (client : Client) (opt : RequestOptions) (n : Network) :
  NewRequest_error (Method opt) (url_of client opt) = None →
  RequestAPI client opt n
  = let '(r, s) := round_trip (request_of client opt) (remote n) in
    let n' := {| remote := s; wire := app (wire n) [request_of client opt] |} in
    match r with
    | inl err => (inl err, n')
    | inr resp =>
        match RespBody resp with
        | inl _ => (inl ("Failed to read body " ++ pretty (StatusCode resp) ++ " "
                         ++ Status resp), n')
        | inr body =>
            if decide (StatusCode resp ≠ 200%Z)
            then (inl (Status resp ++ ", " ++ string_of_list_byte body), n')
            else (inr body, n')
        end
    end.
Proof.
  intros Hok. unfold RequestAPI. rewrite final_url.
  unfold NewRequest. rewrite Hok. unfold Do, Header_Set. cbn.
  fold (request_of client opt).
  destruct (round_trip (request_of client opt) (remote n)) as [[err|resp] s];
    reflexivity.
Qed.

(** C6: when the remote end answers with a status other than 200,
    [RequestAPI] returns no bytes and an error whose message holds the
    status text and the body as received; a 200 answer gives back the whole
    body and no error. *)
Theorem C6_status_errors (client : Client) (opt : RequestOptions) (n : Network)
    (resp : Response) (body : list Byte.byte) :
  NewRequest_error (Method opt) (url_of client opt) = None →
  fst (round_trip (request_of client opt) (remote n)) = inr resp →
  RespBody resp = inr body →
  (StatusCode resp ≠ 200%Z →
   ∃ msg, fst (RequestAPI client opt n) = inl msg
          ∧ substring (Status resp) msg
          ∧ substring (string_of_list_byte body) msg)
  ∧ (StatusCode resp = 200%Z → fst (RequestAPI client opt n) = inr body).
Proof.
  intros Hok Hresp Hbody. rewrite RequestAPI_unfold by done.
  destruct (round_trip (request_of client opt) (remote n)) as [r s].
  simpl in Hresp. subst r. rewrite Hbody. split; intros Hcode.
  - rewrite decide_True by done. eexists. split; [reflexivity|]. split.
    + apply substring_l.
    + apply substring_app_r, substring_r.
  - by rewrite decide_False by (intros Hne; by apply Hne).
Qed.

(** C8: the request put on the wire has the URL made of the host, the path
    and the query string, the [Authorization] header equal to the token
    itself and the fixed [Content-Type]; the query string is empty without
    parameters, and otherwise a question mark followed by the [key=value]
    pairs of the map, in the order [range] visits them, joined with
    ampersands; keys and values are written as they are. *)
Theorem C8_request_built (client : Client) (opt : RequestOptions) (n : Network) :
  (NewRequest_error (Method opt) (url_of client opt) = None →
   ∃ r, sent client opt n = [r]
        ∧ ReqMethod r = Method opt
        ∧ ReqBody r = Body opt
        ∧ ReqURL r = Host client ++ Path opt ++ query_string (QS opt)
        ∧ Header r !! "Authorization" = Some (Token client)
        ∧ Header r !! "Content-Type" = Some "application/json; charset=utf-8")
  ∧ query_string None = ""
  ∧ (∀ qs, ∃ l, l ≡ₚ map_to_list qs
                ∧ query_string (Some qs)
                  = "?" ++ Join ((λ kv, fst kv ++ "=" ++ snd kv) <$> l) "&")
  ∧ (∀ k v, query_string (Some {[ k := v ]}) = "?" ++ k ++ "=" ++ v).
Proof.
  repeat split.
  - intros Hok. exists (request_of client opt). unfold sent.
    rewrite RequestAPI_unfold by done.
    destruct (round_trip (request_of client opt) (remote n)) as [[err|resp] s];
      [|destruct (RespBody resp); [|case_decide]];
      simpl; rewrite drop_app_length; repeat split.
  - intros qs. exists (range_map qs). split; [apply range_map_perm|reflexivity].
  - intros k v. unfold query_string.
    pose proof (range_map_perm {[ k := v ]}) as Hp.
    rewrite map_to_list_singleton in Hp.
    apply Permutation_singleton_r in Hp. rewrite Hp. reflexivity.
Qed.
End Facts.

(** A 404 answer with the body [{"message":"not found"}]. *)
Lemma C6_status_errors_witness :
  let client := {| Token := "tok"; Host := "https://g.codefresh.io/api" |} in
  let opt := {| Path := "/contexts/missing"; Method := "GET"; Body := [];
                QS := None |} in
  ∃ msg, fst (RequestAPI client opt {| remote := tt; wire := [] |}) = inl msg
         ∧ substring "404 Not Found" msg
         ∧ substring not_found_body msg.
Proof.
  intros client opt.
  refine (proj1 (C6_status_errors client opt {| remote := tt; wire := [] |}
                   {| Status := "404 Not Found"; StatusCode := 404%Z;
                      RespBody := inr (list_byte_of_string not_found_body) |}
                   (list_byte_of_string not_found_body) _ _ _) _);
    [reflexivity|reflexivity|reflexivity|discriminate].
Defined.

(** A request with one query parameter whose value holds reserved
    characters. *)
Lemma C8_request_built_witness :
  let client := {| Token := "tok"; Host := "https://g.codefresh.io/api" |} in
  let opt := {| Path := "/contexts"; Method := "GET"; Body := [];
                QS := Some {[ "q" := "a b&c" ]} |} in
  let n := {| remote := tt; wire := [] |} in
  ∃ r, sent client opt n = [r]
       ∧ ReqMethod r = "GET"
       ∧ ReqBody r = []
       ∧ ReqURL r = "https://g.codefresh.io/api/contexts?q=a b&c"
       ∧ Header r !! "Authorization" = Some "tok"
       ∧ Header r !! "Content-Type" = Some "application/json; charset=utf-8".
Proof.
  intros client opt n.
  apply (proj1 (C8_request_built client opt n)).
  reflexivity.
Defined.
End ApiClientProofs.

(** ** Pipeline: trigger defaults *)

Module PipelineProofs.
Import PipelineResource.
Local Open Scope list_scope.

Section Facts.
Context `{ClientTypes}.

Lemma fold_append_triggers (d : ResourceData) (idxs : list nat) (p : Pipeline) :
  Triggers (Spec_ (fold_left (λ pipeline idx, append_trigger (map_trigger d idx) pipeline)
                             idxs p))
  = Triggers (Spec_ p) ++ (map_trigger d <$> idxs).
Proof.
  revert p. induction idxs as [|i idxs IH]; intros p; simpl.
  - by rewrite app_nil_r.
  - rewrite IH. simpl. by rewrite <- app_assoc.
Qed.

(** The triggers of the pipeline are the trigger blocks mapped in order. *)
Lemma mapped_triggers (d : ResourceData) :
  Triggers (Spec_ (mapResourceToPipeline d))
  = map_trigger d <$> seq 0 (length (Get_triggers d)).
Proof. unfold mapResourceToPipeline. by rewrite fold_append_triggers. Qed.

(** C7: when the first trigger block leaves out [type] and [branch_regex],
    the first trigger of the Pipeline built by [mapResourceToPipeline] has
    type [git] and branch filter [/.*/gi], the schema defaults. *)
Theorem C7_trigger_defaults (d : ResourceData) (s : SpecBlock) (t : TriggerBlock) :
  spec d !! 0%nat = Some s →
  trigger s !! 0%nat = Some t →
  attrs t !! "type" = None →
  attrs t !! "branch_regex" = None →
  ∃ tr, Triggers (Spec_ (mapResourceToPipeline d)) !! 0%nat = Some tr
        ∧ Type_ tr = "git"
        ∧ BranchRegex tr = "/.*/gi"
        ∧ trigger_defaults !! "type" = Some "git"
        ∧ trigger_defaults !! "branch_regex" = Some "/.*/gi".
Proof.
  intros Hs Ht Htype Hbranch. exists (map_trigger d 0).
  rewrite mapped_triggers. unfold Get_triggers. rewrite Hs.
  destruct (trigger s) as [|t0 ts] eqn:Etr; [discriminate|].
  simpl in Ht. injection Ht as ->.
  split; [reflexivity|].
  unfold map_trigger, Trigger_SetVariables. cbn [Type_ BranchRegex].
  unfold Get_trigger_string. rewrite Hs. simpl. rewrite Etr. simpl.
  unfold read_attr. rewrite Htype, Hbranch. repeat split.
Qed.
End Facts.

Lemma C7_trigger_defaults_witness :
  let t := {| attrs := {[ "name" := "on-push"; "repo" := "abcinc/monorepo" ]};
              events := ["push.heads"]; disabled := None; variables := ∅ |} in
  let s := {| priority := None; concurrency := None; spec_template := [];
              spec_variables := ∅; trigger := [t] |} in
  let d := {| name := "docker/docker-monorepo"; project_id := "";
              tags := ∅; spec := [s] |} in
  ∃ tr, Triggers (Spec_ (mapResourceToPipeline d)) !! 0%nat = Some tr
        ∧ Type_ tr = "git"
        ∧ BranchRegex tr = "/.*/gi"
        ∧ trigger_defaults !! "type" = Some "git"
        ∧ trigger_defaults !! "branch_regex" = Some "/.*/gi".
Proof.
  intros t s d. apply (C7_trigger_defaults d s t); reflexivity.
Defined.
End PipelineProofs.

(** ** Context: further properties of the mappers and of the hooks *)

Module ContextExtras.
Import ContextResource ContextHooks ContextProofs.

Section Mappers.
Context `{YamlCodec} `{Helpers}.

(** The two probing chains agree: the Context built by
    [mapResourceToContext] carries the type [getContextTypeFromResource]
    finds and the name of the tree; when no variant is populated the type is
    empty and the data nil. *)
Theorem mapper_agrees_with_detector (d : ResourceData) :
  Type_ (Spec (mapResourceToContext d)) = getContextTypeFromResource d
  ∧ Name (Metadata (mapResourceToContext d)) = name d
  ∧ (getContextTypeFromResource d = "" → Data (Spec (mapResourceToContext d)) = None).
Proof.
  unfold mapResourceToContext, getContextTypeFromResource.
  repeat (destruct (snd _); [repeat split; discriminate|]).
  repeat split.
Qed.

(** A Context whose type is none of the seven flattens to nil: when the
    spec is read back (decrypt flag true, or current variant unencrypted)
    the stored spec becomes the empty list, and no error is returned. *)
Theorem unknown_type_clears_spec (context : Context) (d : ResourceData) :
  Type_ (Spec context) ∉ contextTypes →
  decrypt_spec d = true
  ∨ contains encryptedContextTypes (getContextTypeFromResource d) = false →
  mapContextToResource context d
  = ({| name := Name (Metadata context); decrypt_spec := decrypt_spec d;
        spec := [] |}, None).
Proof.
  intros Hnot Hguard. unfold mapContextToResource. cbn [decrypt_spec].
  erewrite (detector_spec_only _ d) by reflexivity.
  replace (decrypt_spec d
           || negb (contains encryptedContextTypes (getContextTypeFromResource d)))
    with true by (destruct Hguard as [-> | ->]; [done|by rewrite orb_true_r]).
  assert (Hflat : flattenContextSpec (Spec context) = VNil).
  { unfold flattenContextSpec.
    repeat (case_decide;
            [exfalso; apply Hnot; unfold contextTypes; destruct_or?;
             match goal with E : Type_ _ = _ |- _ => rewrite E end;
             repeat constructor|]).
    reflexivity. }
  rewrite Hflat. reflexivity.
Qed.

(** Reading the same Context a second time changes nothing: the data and
    the error are those of the first read. *)
Theorem read_back_idempotent (context : Context) (d : ResourceData) :
  mapContextToResource context (fst (mapContextToResource context d))
  = mapContextToResource context d.
Proof.
  unfold mapContextToResource. cbn [decrypt_spec name spec].
  erewrite (detector_spec_only _ d) by reflexivity.
  destruct (decrypt_spec d
            || negb (contains encryptedContextTypes (getContextTypeFromResource d)))
    eqn:Hguard.
  - destruct (set_spec (flattenContextSpec (Spec context))) as [err|s];
      cbn [fst decrypt_spec name spec].
    + erewrite (detector_spec_only _ d) by reflexivity.
      by rewrite Hguard.
    + match goal with |- (if ?b then _ else _) = _ => destruct b end;
        reflexivity.
  - cbn [fst decrypt_spec name spec].
    erewrite (detector_spec_only _ d) by reflexivity.
    by rewrite Hguard.
Qed.

(** A Context that comes from the service with a non-empty map of strings
    under the type config or secret survives the way to the tree and back:
    once read (decrypt flag true, or current variant unencrypted),
    [mapResourceToContext] rebuilds it. *)
Theorem api_roundtrip_map_variants (n t : string) (m : gmap string string)
    (d : ResourceData) :
  NoDup (MustNormalizeFieldName <$> contextTypes) →
  t = contextConfig ∨ t = contextSecret →
  m ≠ ∅ →
  decrypt_spec d = true
  ∨ contains encryptedContextTypes (getContextTypeFromResource d) = false →
  let context := {| Metadata := {| Name := n |};
                    Spec := {| Type_ := t; Data := Some (VString <$> m) |} |} in
  snd (mapContextToResource context d) = None
  ∧ mapResourceToContext (fst (mapContextToResource context d)) = context.
Proof.
  intros Hnd Ht Hm Hguard context.
  assert (Hnz : negb (map_is_zero m) = true).
  { unfold map_is_zero. by rewrite bool_decide_eq_false_2. }
  assert (Hread : mapContextToResource context d
                  = (single_config n (decrypt_spec d)
                       (if decide (t = contextConfig) then ConfigData m
                        else SecretData m), None)).
  { unfold mapContextToResource. cbn [decrypt_spec].
    erewrite (detector_spec_only _ d) by reflexivity.
    replace (decrypt_spec d
             || negb (contains encryptedContextTypes (getContextTypeFromResource d)))
      with true by (destruct Hguard as [-> | ->]; [done|by rewrite orb_true_r]).
    subst context. cbn [Spec Metadata Name].
    destruct Ht as [-> | ->]; unfold flattenContextSpec; cbn [Type_]; pick_case;
      unfold set_spec, mapE;
      rewrite set_spec_block_single
        by (done || (unfold contextTypes; repeat constructor));
      pick_case; rewrite !set_data_blocks_nil;
      unfold flattenContextConfig; cbn [Data data_value];
      rewrite (set_data_blocks_data _ _ m) by apply set_string_map_strings;
      reflexivity. }
  rewrite Hread. cbn [fst snd]. split; [reflexivity|].
  rewrite mapper_single by (by destruct Ht as [-> | ->]; pick_case).
  subst context. destruct Ht as [-> | ->]; pick_case; reflexivity.
Qed.
End Mappers.

Lemma unknown_type_clears_spec_witness :
  mapContextToResource
    {| Metadata := {| Name := "github" |};
       Spec := {| Type_ := "git.github"; Data := None |} |}
    (single_config "ctx" true (ConfigData {[ "k" := "v" ]}))
  = ({| name := "github"; decrypt_spec := true; spec := [] |}, None).
Proof.
  apply (unknown_type_clears_spec
           {| Metadata := {| Name := "github" |};
              Spec := {| Type_ := "git.github"; Data := None |} |}
           (single_config "ctx" true (ConfigData {[ "k" := "v" ]}))).
  - unfold contextTypes. cbn [Type_ Spec]. intros Hin.
    repeat (apply elem_of_cons in Hin as [Hin|Hin]; [discriminate Hin|]).
    by apply elem_of_nil in Hin.
  - left. reflexivity.
Defined.

Lemma api_roundtrip_map_variants_witness :
  let context := {| Metadata := {| Name := "ctx" |};
                    Spec := {| Type_ := contextSecret;
                               Data := Some (VString <$> {[ "k" := "v" ]}) |} |} in
  let d := {| name := "ctx"; decrypt_spec := true; spec := [] |} in
  snd (mapContextToResource context d) = None
  ∧ mapResourceToContext (fst (mapContextToResource context d)) = context.
Proof.
  intros context d.
  apply (api_roundtrip_map_variants "ctx" contextSecret {[ "k" := "v" ]} d).
  - refine (bool_decide_unpack _ _). vm_compute. exact I.
  - right. reflexivity.
  - intros E. apply (f_equal (λ m : gmap string string, m !! "k")) in E.
    vm_compute in E. discriminate E.
  - left. reflexivity.
Defined.

Section Conflicts.
Context `{Helpers}.

Lemma conflicts_fold (k : string) (l : list string) (acc : list string) (p : string) :
  p ∈ fold_left
        (λ (conflictingTypes : list string) value,
           if decide (MustNormalizeFieldName value ≠ k)
           then app conflictingTypes ["spec.0." ++ MustNormalizeFieldName value]
           else conflictingTypes) l acc
  ↔ p ∈ acc ∨ ∃ v, v ∈ l ∧ MustNormalizeFieldName v ≠ k
                   ∧ p = "spec.0." ++ MustNormalizeFieldName v.
Proof.
  revert acc. induction l as [|x l IH]; intros acc; simpl.
  - split; [by left|]. intros [?|(v & Hv & _)]; [done|]. by apply elem_of_nil in Hv.
  - rewrite IH. case_decide as Hx.
    + rewrite elem_of_app, list_elem_of_singleton. split.
      * intros [[?| ->]|(v & Hv & Hne & ->)]; [by left| |].
        -- right. exists x. split; [left|done].
        -- right. exists v. split; [by right|done].
      * intros [?|(v & Hv & Hne & ->)]; [by left; left|].
        apply elem_of_cons in Hv as [-> |Hv]; [by left; right|].
        right. by exists v.
    + split.
      * intros [?|(v & Hv & Hne & ->)]; [by left|].
        right. exists v. split; [by right|done].
      * intros [?|(v & Hv & Hne & ->)]; [by left|].
        apply elem_of_cons in Hv as [-> |Hv]; [by destruct Hx|].
        right. by exists v.
Qed.

Lemma conflicts_length (k : string) (l : list string) (acc : list string) :
  length (fold_left
            (λ (conflictingTypes : list string) value,
               if decide (MustNormalizeFieldName value ≠ k)
               then app conflictingTypes ["spec.0." ++ MustNormalizeFieldName value]
               else conflictingTypes) l acc)
  = (length acc
     + length (filter (λ v, MustNormalizeFieldName v ≠ k) l))%nat.
Proof.
  revert acc. induction l as [|x l IH]; intros acc; simpl; [lia|].
  rewrite IH, filter_cons. case_decide; simpl; rewrite ?length_app; simpl; lia.
Qed.

(** With distinct schema keys, the conflict list of a supported variant
    names exactly the three other supported variants: its own path is not in
    it, nor is the path of any storage variant. *)
Theorem conflicting_contexts (t : string) :
  NoDup (MustNormalizeFieldName <$> contextTypes) →
  t ∈ supportedContextType →
  (∀ t', t' ∈ contextTypes →
         "spec.0." ++ MustNormalizeFieldName t' ∈ getConflictingContexts t
         ↔ t' ∈ supportedContextType ∧ t' ≠ t)
  ∧ length (getConflictingContexts t) = 3%nat.
Proof.
  intros Hnd Ht.
  assert (Hsub : ∀ v, v ∈ supportedContextType → v ∈ contextTypes).
  { intros v Hv. unfold supportedContextType in Hv. unfold contextTypes.
    repeat (apply elem_of_cons in Hv as [-> |Hv]; [repeat constructor|]).
    by apply elem_of_nil in Hv. }
  split.
  - intros t' Ht'. unfold getConflictingContexts. rewrite conflicts_fold. split.
    + intros [Hnil|(v & Hv & Hne & Hp)]; [by apply elem_of_nil in Hnil|].
      apply (inj (String.append "spec.0.")) in Hp.
      apply (key_inj Hnd) in Hp; [|done|by apply Hsub]. subst v.
      split; [done|]. by intros ->.
    + intros [Hs Hne]. right. exists t'. repeat split; [done|].
      intros E. apply Hne. apply (key_inj Hnd); [done|by apply Hsub|done].
  - unfold getConflictingContexts. rewrite conflicts_length. simpl.
    unfold supportedContextType in *.
    assert (Hdec : ∀ v, v ∈ contextTypes →
              (MustNormalizeFieldName v ≠ MustNormalizeFieldName t) ↔ v ≠ t).
    { intros v Hv. split; [by intros ? ->|].
      intros Hne E. apply Hne. apply (key_inj Hnd); [done|by apply Hsub|done]. }
    repeat (apply elem_of_cons in Ht as [-> |Ht];
            [rewrite !filter_cons, filter_nil;
             repeat match goal with
               | |- context [decide (MustNormalizeFieldName ?a ≠ MustNormalizeFieldName ?b)] =>
                   first
                     [ rewrite (decide_False (P := MustNormalizeFieldName a ≠ MustNormalizeFieldName b))
                         by (intros E; by apply E)
                     | rewrite (decide_True (P := MustNormalizeFieldName a ≠ MustNormalizeFieldName b))
                         by (apply Hdec;
                             [unfold contextTypes; repeat constructor|discriminate]) ]
               end;
             reflexivity|]).
    by apply elem_of_nil in Ht.
Qed.
End Conflicts.

Lemma conflicting_contexts_witness :
  getConflictingContexts contextYaml
  = ["spec.0.config"; "spec.0.secret"; "spec.0.secretyaml"]
  ∧ length (getConflictingContexts contextYaml) = 3%nat.
Proof.
  split; [reflexivity|].
  apply (conflicting_contexts contextYaml).
  - refine (bool_decide_unpack _ _). vm_compute. exact I.
  - unfold supportedContextType. repeat constructor.
Defined.

Section HookFacts.
Context `{YamlCodec} `{Helpers} `{ContextService}.

Lemma context_call_log {A} (c : Call) (h : ContextState → A * ContextState) (w : World) :
  calls (snd (call c h w)) = app (calls w) [c]
  ∧ fst (call c h w) = fst (h (service w))
  ∧ service (snd (call c h w)) = snd (h (service w)).
Proof. unfold call. by destruct (h (service w)). Qed.

(** The decrypt flag the read hook passes to the service. *)
Lemma read_unfold (d : Resource) (w : World) :
  Id d ≠ "" →
  let flag := contains encryptedContextTypes (getContextTypeFromResource (data d))
              && decrypt_spec (data d) in
  let w' := {| service := snd (getContext (Id d) flag (service w));
               calls := app (calls w) [CallGetContext (Id d) flag] |} in
  resourceContextRead d w
  = match fst (getContext (Id d) flag (service w)) with
    | inl err => ((d, Some err), w')
    | inr context =>
        (({| Id := Id d; data := fst (mapContextToResource context (data d)) |},
          snd (mapContextToResource context (data d))), w')
    end.
Proof.
  intros Hid flag w'. unfold resourceContextRead. rewrite decide_False by done.
  fold flag. unfold call.
  destruct (getContext (Id d) flag (service w)) as [[err|context] s]; cbn.
  - reflexivity.
  - by destruct (mapContextToResource context (data d)).
Qed.

(** The read hook makes no call for an empty identifier, and otherwise
    exactly one [GetContext] call, for the identifier, asking for decryption
    only when the current variant is an encrypted kind and [decrypt_spec] is
    true. *)
Theorem read_asks_once (d : Resource) (w : World) :
  (Id d = "" → resourceContextRead d w = ((SetId "" d, None), w))
  ∧ (Id d ≠ "" →
     calls_of (resourceContextRead d) w
     = [CallGetContext (Id d)
          (contains encryptedContextTypes (getContextTypeFromResource (data d))
           && decrypt_spec (data d))]).
Proof.
  split; intros Hid.
  - unfold resourceContextRead. by rewrite decide_True.
  - unfold calls_of. rewrite read_unfold by done.
    destruct (fst (getContext _ _ _)); cbn; by rewrite drop_app_length.
Qed.

(** With an encrypted current variant and [decrypt_spec] false, the read
    hook asks without decryption and keeps the stored spec, whatever the
    service answers. *)
Theorem read_keeps_undecrypted_spec (d : Resource) (w : World) :
  contains encryptedContextTypes (getContextTypeFromResource (data d)) = true →
  decrypt_spec (data d) = false →
  spec (data (fst (fst (resourceContextRead d w)))) = spec (data d)
  ∧ decrypt_spec (data (fst (fst (resourceContextRead d w)))) = false
  ∧ (∀ c, c ∈ calls_of (resourceContextRead d) w → c = CallGetContext (Id d) false).
Proof.
  intros Henc Hdec. destruct (decide (Id d = "")) as [Hid|Hid].
  - unfold calls_of, resourceContextRead. rewrite decide_True by done. cbn.
    rewrite drop_all. repeat split; [done|]. intros c Hc. by apply elem_of_nil in Hc.
  - unfold calls_of. rewrite read_unfold by done. rewrite Henc, Hdec. cbn [andb].
    assert (Hmap : ∀ context,
               spec (fst (mapContextToResource context (data d))) = spec (data d)
               ∧ decrypt_spec (fst (mapContextToResource context (data d))) = false).
    { intros context. unfold mapContextToResource. cbn [decrypt_spec].
      erewrite (detector_spec_only _ (data d)) by reflexivity.
      rewrite Hdec, Henc. cbn. done. }
    destruct (fst (getContext (Id d) false (service w))) as [err|context]; cbn.
    + rewrite drop_app_length. repeat split; [done|].
      intros c Hc. by apply list_elem_of_singleton in Hc.
    + rewrite drop_app_length. destruct (Hmap context) as [-> ->].
      repeat split. intros c Hc. by apply list_elem_of_singleton in Hc.
Qed.

(** The update hook first sends the Context named by the identifier (not by
    the [name] attribute) with the type and data [mapResourceToContext]
    builds; when the service refuses it, nothing else is called and the
    error is returned with the resource as it was. *)
Theorem update_sends_identifier (d : Resource) (w : World) :
  let context := {| Metadata := {| Name := Id d |};
                    Spec := Spec (mapResourceToContext (data d)) |} in
  (∃ rest, calls_of (resourceContextUpdate d) w = CallUpdateContext context :: rest)
  ∧ (∀ err, fst (updateContext context (service w)) = inl err →
            fst (resourceContextUpdate d w) = (d, Some err)
            ∧ calls_of (resourceContextUpdate d) w = [CallUpdateContext context]).
Proof.
  intros context. unfold calls_of, resourceContextUpdate. fold context.
  destruct (context_call_log (CallUpdateContext context) (updateContext context) w)
    as (Hc & Hr & Hs).
  destruct (call (CallUpdateContext context) (updateContext context) w) as [r w1].
  cbn [fst snd] in *. split.
  - destruct r as [err|resp]; cbn [snd].
    + exists []. by rewrite Hc, drop_app_length.
    + destruct (decide (Id d = "")) as [Hid|Hid].
      * exists []. unfold resourceContextRead. rewrite decide_True by done.
        cbn. by rewrite Hc, drop_app_length.
      * eexists. rewrite read_unfold by done.
        destruct (fst (getContext _ _ _)); cbn [snd calls];
          rewrite Hc, <- app_assoc, drop_app_length; reflexivity.
  - intros err E. rewrite Hr, E. cbn. split; [done|].
    by rewrite Hc, drop_app_length.
Qed.

(** The create hook sends the Context [mapResourceToContext] builds; on a
    refusal it returns the error, calls nothing else and leaves the
    resource as it was; on success the identifier becomes the name the
    service returned, and the read that follows asks for that name. *)
Theorem create_then_read (d : Resource) (w : World) :
  let context := mapResourceToContext (data d) in
  (∀ err, fst (createContext context (service w)) = inl err →
          fst (resourceContextCreate d w) = (d, Some err)
          ∧ calls_of (resourceContextCreate d) w = [CallCreateContext context])
  ∧ (∀ resp, fst (createContext context (service w)) = inr resp →
          Name (Metadata resp) ≠ "" →
          Id (fst (fst (resourceContextCreate d w))) = Name (Metadata resp)
          ∧ calls_of (resourceContextCreate d) w
            = [CallCreateContext context;
               CallGetContext (Name (Metadata resp))
                 (contains encryptedContextTypes (getContextTypeFromResource (data d))
                  && decrypt_spec (data d))]).
Proof.
  intros context. unfold calls_of, resourceContextCreate. fold context.
  destruct (context_call_log (CallCreateContext context) (createContext context) w)
    as (Hc & Hr & Hs).
  destruct (call (CallCreateContext context) (createContext context) w) as [r w1].
  cbn [fst snd] in *. split.
  - intros err E. rewrite Hr, E. cbn. split; [done|].
    by rewrite Hc, drop_app_length.
  - intros resp E Hname. rewrite Hr, E.
    rewrite read_unfold by done. cbn [SetId Id data].
    destruct (fst (getContext _ _ _)); cbn [fst snd calls Id];
      rewrite Hc, <- app_assoc, drop_app_length; done.
Qed.
End HookFacts.

Lemma read_keeps_undecrypted_spec_witness :
  let d := {| Id := "ctx";
              data := single_config "ctx" false (SecretData {[ "k" := "v" ]}) |} in
  let w := {| service := tt; calls := [] |} in
  spec (data (fst (fst (resourceContextRead d w)))) = spec (data d)
  ∧ decrypt_spec (data (fst (fst (resourceContextRead d w)))) = false
  ∧ (∀ c, c ∈ calls_of (resourceContextRead d) w → c = CallGetContext "ctx" false).
Proof.
  intros d w. apply (read_keeps_undecrypted_spec d w); reflexivity.
Defined.

Lemma read_asks_once_witness :
  let d := {| Id := "ctx";
              data := single_config "ctx" true (SecretData {[ "k" := "v" ]}) |} in
  let w := {| service := tt; calls := [] |} in
  calls_of (resourceContextRead d) w = [CallGetContext "ctx" true].
Proof.
  intros d w. apply (proj2 (read_asks_once d w)). discriminate.
Defined.

Lemma create_then_read_witness :
  let d := {| Id := "";
              data := single_config "ctx" true (ConfigData {[ "k" := "v" ]}) |} in
  let w := {| service := tt; calls := [] |} in
  Id (fst (fst (resourceContextCreate d w))) = "ctx"
  ∧ calls_of (resourceContextCreate d) w
    = [CallCreateContext (mapResourceToContext (data d)); CallGetContext "ctx" false].
Proof.
  intros d w.
  apply (proj2 (create_then_read d w) (mapResourceToContext (data d)));
    [reflexivity|discriminate].
Defined.
End ContextExtras.

(** ** The REST client: failures, retries and the query string *)

Module ApiClientExtras.
Import ApiClient ApiClientSamples ApiClientProofs.

Section Facts.
Context `{Runtime}.

(** When [http.NewRequest] refuses the method or the URL, [RequestAPI]
    returns that error before the transport is called: the network, the
    remote end and the log of requests alike, is left as it was. *)
Theorem rejected_request_not_sent (client : Client) (opt : RequestOptions)
    (n : Network) (err : error) :
  NewRequest_error (Method opt) (url_of client opt) = Some err →
  RequestAPI client opt n = (inl err, n) ∧ sent client opt n = [].
Proof.
  intros Hrej.
  assert (Hcall : RequestAPI client opt n = (inl err, n)).
  { unfold RequestAPI. rewrite final_url. unfold NewRequest. by rewrite Hrej. }
  split; [exact Hcall|].
  unfold sent. rewrite Hcall. cbn. apply drop_all.
Qed.

(** A transport error is returned as it is.  When the body cannot be read
    to its end the call fails with a message made of the status code and the
    status text, whatever the status is, 200 included. *)
Theorem transport_and_body_failures (client : Client) (opt : RequestOptions)
    (n : Network) :
  NewRequest_error (Method opt) (url_of client opt) = None →
  (∀ err, fst (round_trip (request_of client opt) (remote n)) = inl err →
          fst (RequestAPI client opt n) = inl err)
  ∧ (∀ resp e, fst (round_trip (request_of client opt) (remote n)) = inr resp →
          RespBody resp = inl e →
          fst (RequestAPI client opt n)
          = inl ("Failed to read body " ++ pretty (StatusCode resp) ++ " "
                 ++ Status resp)).
Proof.
  intros Hok. rewrite RequestAPI_unfold by done.
  destruct (round_trip (request_of client opt) (remote n)) as [r s].
  cbn [fst]. split.
  - by intros err ->.
  - intros resp e -> Hbody. by rewrite Hbody.
Qed.

(** A nil parameter map adds nothing to the URL; an empty map that is not
    nil adds a bare question mark. *)
Theorem empty_query_map (client : Client) (opt : RequestOptions) :
  ToQS ∅ = "?"
  ∧ (QS opt = None → url_of client opt = Host client ++ Path opt)
  ∧ (QS opt = Some ∅ → url_of client opt = Host client ++ Path opt ++ "?").
Proof.
  assert (Hempty : range_map ∅ = []).
  { pose proof (range_map_perm ∅) as Hp. rewrite map_to_list_empty in Hp.
    by apply Permutation_nil_r in Hp. }
  repeat split.
  - unfold ToQS. by rewrite Hempty.
  - intros Hq. unfold url_of. rewrite Hq. cbn. by rewrite append_nil_r.
  - intros Hq. unfold url_of, query_string. rewrite Hq, Hempty. reflexivity.
Qed.

Lemma ToQS_singleton (k v : string) : ToQS {[ k := v ]} = "?" ++ k ++ "=" ++ v.
Proof.
  unfold ToQS. pose proof (range_map_perm {[ k := v ]}) as Hp.
  rewrite map_to_list_singleton in Hp.
  apply Permutation_singleton_r in Hp. by rewrite Hp.
Qed.

(** Keys and values are not escaped, so the query string does not determine
    the parameters: a single parameter whose value holds [&k'=v'] gives
    exactly the string of the two parameters [k=v] and [k'=v'], when
    [range] visits [k] first. *)
Theorem query_string_ambiguous (k v k' v' : string) :
  range_map {[ k := v; k' := v' ]} = [(k, v); (k', v')] →
  ToQS {[ k := v ++ "&" ++ k' ++ "=" ++ v' ]} = ToQS {[ k := v; k' := v' ]}.
Proof.
  intros Horder. rewrite ToQS_singleton. unfold ToQS. rewrite Horder. cbn.
  by rewrite !append_assoc.
Qed.
End Facts.

Lemma rejected_request_not_sent_witness :
  let client := {| Token := "tok"; Host := "https://g.codefresh.io/api" |} in
  let opt := {| Path := "/contexts"; Method := "BAD METHOD"; Body := []; QS := None |} in
  let n := @Build_Network strict_method_runtime tt [] in
  RequestAPI client opt n
  = (inl ("net/http: invalid method " ++ dquote ++ "BAD METHOD" ++ dquote), n)
  ∧ sent client opt n = [].
Proof.
  intros client opt n.
  apply (rejected_request_not_sent (H := strict_method_runtime) client opt n).
  reflexivity.
Defined.

Lemma transport_and_body_failures_witness :
  let client := {| Token := "tok"; Host := "https://g.codefresh.io/api" |} in
  let opt := {| Path := "/contexts"; Method := "GET"; Body := []; QS := None |} in
  let n := @Build_Network broken_body_runtime tt [] in
  fst (RequestAPI client opt n) = inl "Failed to read body 200 200 OK".
Proof.
  intros client opt n.
  apply (proj2 (transport_and_body_failures (H := broken_body_runtime)
                  client opt n eq_refl)
           {| Status := "200 OK"; StatusCode := 200%Z;
              RespBody := inl "unexpected EOF" |} "unexpected EOF");
    reflexivity.
Defined.

Lemma empty_query_map_witness :
  url_of {| Token := "tok"; Host := "https://g.codefresh.io/api" |}
         {| Path := "/contexts"; Method := "GET"; Body := []; QS := Some ∅ |}
  = "https://g.codefresh.io/api/contexts?".
Proof.
  apply (empty_query_map (H := not_found_runtime)
           {| Token := "tok"; Host := "https://g.codefresh.io/api" |}
           {| Path := "/contexts"; Method := "GET"; Body := []; QS := Some ∅ |}).
  reflexivity.
Defined.

Lemma query_string_ambiguous_witness :
  ToQS {[ "a" := "1&b=2" ]} = ToQS {[ "a" := "1"; "b" := "2" ]}.
Proof.
  apply (query_string_ambiguous (H := not_found_runtime) "a" "1" "b" "2").
  vm_compute. reflexivity.
Defined.
End ApiClientExtras.

(** ** The provider: where the host and the token come from *)

Module ProviderExtras.
Import ApiClient Provider ApiClientProofs.

(** When [api_url] is left out of the provider block, the client's host is
    the environment variable CODEFRESH_API_URL if it is set and not empty,
    and the public endpoint otherwise; it is never the empty string. *)
Theorem default_host (env : gmap string string) (d : ProviderData) :
  api_url d = None →
  Host (configureProvider env d) ≠ ""
  ∧ (∀ u, env !! "CODEFRESH_API_URL" = Some u → u ≠ "" →
          Host (configureProvider env d) = u)
  ∧ (env !! "CODEFRESH_API_URL" = None ∨ env !! "CODEFRESH_API_URL" = Some "" →
     Host (configureProvider env d) = "https://g.codefresh.io/api").
Proof.
  intros Hnone. unfold configureProvider, NewClient, api_url_default, Getenv.
  rewrite Hnone. cbn [Host default]. repeat split.
  - case_decide; [done|discriminate].
  - intros u -> Hu. cbn. by rewrite decide_True.
  - intros [-> | ->]; reflexivity.
Qed.

Lemma default_host_witness :
  Host (configureProvider {[ "CODEFRESH_API_URL" := "" ]}
          {| api_url := None; token := Some "tok" |})
  = "https://g.codefresh.io/api".
Proof.
  apply (default_host {[ "CODEFRESH_API_URL" := "" ]}
           {| api_url := None; token := Some "tok" |}); [reflexivity|].
  right. reflexivity.
Defined.

(** A provider block that gives both [api_url] and [token] decides every
    request, whatever the environment holds: the request goes to [api_url]
    followed by the path and the query string, and carries the token as its
    [Authorization] header. *)
Theorem configured_client_requests `{Runtime} (env : gmap string string)
    (u t : string) (opt : RequestOptions) (n : Network) :
  let client := configureProvider env {| api_url := Some u; token := Some t |} in
  NewRequest_error (Method opt) (url_of client opt) = None →
  ∃ r, sent client opt n = [r]
       ∧ ReqURL r = u ++ Path opt ++ query_string (QS opt)
       ∧ Header r !! "Authorization" = Some t.
Proof.
  intros client Hok. exists (request_of client opt). unfold sent.
  rewrite RequestAPI_unfold by done.
  destruct (round_trip (request_of client opt) (remote n)) as [[err|resp] s];
    [|destruct (RespBody resp); [|case_decide]];
    cbn; rewrite drop_app_length; repeat split.
Qed.

Lemma configured_client_requests_witness :
  let client := configureProvider {[ "CODEFRESH_API_URL" := "https://other" ]}
                  {| api_url := Some "https://cf.local/api"; token := Some "tok" |} in
  let opt := {| Path := "/pipelines"; Method := "GET"; Body := []; QS := None |} in
  let n := {| remote := tt; wire := [] |} in
  ∃ r, sent client opt n = [r]
       ∧ ReqURL r = "https://cf.local/api/pipelines"
       ∧ Header r !! "Authorization" = Some "tok".
Proof.
  intros client opt n.
  apply (configured_client_requests {[ "CODEFRESH_API_URL" := "https://other" ]}
           "https://cf.local/api" "tok" opt n).
  reflexivity.
Defined.
End ProviderExtras.

(** ** Permission: the hooks one by one, and the two mappers together *)

Module PermissionExtras.
Import PermissionResource PermissionProofs.
Local Open Scope list_scope.

(** The validation passes whenever the resource is pipeline, and whenever
    none of [resource], [related_resource] and [action] changed, whatever
    their values are: a combination already in place is not checked again. *)
Theorem custom_diff_passes (diff : ResourceData) :
  resource (planned diff) = "pipeline"
  ∨ (HasChange diff "resource" = false
     ∧ HasChange diff "related_resource" = false
     ∧ HasChange diff "action" = false) →
  resourcePermissionCustomDiff diff = None.
Proof.
  unfold resourcePermissionCustomDiff, HasChanges. cbn [existsb].
  intros [Hres|(Hr & Hrel & Hact)].
  - rewrite (bool_decide_eq_true_2 _ Hres). cbn [negb]. rewrite !andb_false_r.
    repeat match goal with |- context [if ?b then _ else _] => destruct b end;
      reflexivity.
  - rewrite Hr, Hrel, Hact. reflexivity.
Qed.

Lemma custom_diff_passes_witness :
  resourcePermissionCustomDiff
    {| Id := "p1";
       prior := sample_fields "t1" "run" "cluster" "project" ∅;
       planned := sample_fields "t2" "run" "cluster" "project" {[ "prod" ]} |}
  = None.
Proof.
  apply custom_diff_passes. right. repeat split.
Defined.

(** Writing a Permission into the resource data and building a Permission
    from it again gives the same team, action, resource, related resource
    and rule type, the identifier of the resource, and the same set of tags;
    a Permission without tags comes back with the two default tags. *)
Theorem permission_roundtrip (permission : Permission) (d : ResourceData) :
  let rebuilt := mapResourceToPermission (fst (mapPermissionToResource permission d)) in
  snd (mapPermissionToResource permission d) = None
  ∧ ID rebuilt = Id d
  ∧ Team rebuilt = Team permission
  ∧ Action rebuilt = Action permission
  ∧ Resource rebuilt = Resource permission
  ∧ RelatedResource rebuilt = RelatedResource permission
  ∧ RuleType rebuilt = RuleType permission
  ∧ (Tags permission ≠ [] →
     (list_to_set (Tags rebuilt) : gset string) = list_to_set (Tags permission))
  ∧ (Tags permission = [] → Tags rebuilt = ["*"; "untagged"]).
Proof.
  intros rebuilt. subst rebuilt.
  unfold mapResourceToPermission, mapPermissionToResource, ConvertStringArr.
  cbn [fst snd planned tags Tags ID Team Action Resource RelatedResource RuleType
       Id team action resource related_resource rule_type].
  repeat split.
  - intros Hne.
    destruct (elements (list_to_set (Tags permission) : gset string)) as [|x l] eqn:E.
    + apply elements_empty_inv in E. apply leibniz_equiv in E.
      destruct (Tags permission) as [|y ys]; [done|].
      exfalso. apply (not_elem_of_empty (C := gset string) y).
      rewrite <- E. set_solver.
    + change (0 <? length (x :: l))%nat with true. cbv iota.
      rewrite <- E. apply list_to_set_elements_L.
  - intros ->. cbn. rewrite elements_empty. reflexivity.
Qed.

Lemma permission_roundtrip_witness :
  let p := {| ID := "p9"; Team := "t1"; Action := "read"; Resource := "pipeline";
              RelatedResource := ""; RuleType := "any";
              Tags := ["prod"; "dev"] |} in
  let d := {| Id := "p9"; prior := sample_fields "" "" "" "" ∅;
              planned := sample_fields "" "" "" "" ∅ |} in
  (list_to_set (Tags (mapResourceToPermission (fst (mapPermissionToResource p d))))
     : gset string)
  = list_to_set ["prod"; "dev"].
Proof.
  intros p d. apply (permission_roundtrip p d). discriminate.
Defined.

Section HookFacts.
Context `{Service}.

(** The read hook makes no call for an empty identifier; a failed lookup is
    returned with the resource data as they were; a successful lookup
    replaces the attributes by those of the Permission and keeps the
    identifier. *)
Theorem read_hook (d : ResourceData) (w : World) :
  (Id d = "" → resourcePermissionRead d w = ((SetId "" d, Returned None), w))
  ∧ (Id d ≠ "" →
     (∀ err, fst (getPermissionByID (Id d) (service w)) = inl err →
             fst (resourcePermissionRead d w) = (d, Returned (Some err)))
     ∧ (∀ p, fst (getPermissionByID (Id d) (service w)) = inr p →
             fst (resourcePermissionRead d w)
             = (fst (mapPermissionToResource p d), Returned None))).
Proof.
  split; intros Hid; unfold resourcePermissionRead.
  - by rewrite decide_True.
  - rewrite decide_False by done. rewrite bind_eq. unfold GetPermissionByID.
    destruct (call_result (CallGetPermissionByID (Id d)) (getPermissionByID (Id d)) w)
      as [Er _].
    split.
    + intros err E. rewrite Er, E. reflexivity.
    + intros p E. rewrite Er, E. reflexivity.
Qed.

Lemma create_unfold (d : ResourceData) (w : World) :
  resourcePermissionCreate d w
  = let c := call (CallCreatePermission (mapResourceToPermission d))
                  (createPermission (mapResourceToPermission d)) w in
    match fst c with
    | inl err => ((d, Returned (Some err)), snd c)
    | inr None =>
        ((d, Returned (Some
           "resourcePermissionCreate - failed to create permission, empty response"%string)),
         snd c)
    | inr (Some newPermission) =>
        resourcePermissionRead (SetId (ID newPermission) d) (snd c)
    end.
Proof.
  unfold resourcePermissionCreate. rewrite bind_eq. unfold CreatePermission.
  by destruct (fst _) as [err|[np|]].
Qed.

(** The create hook: a refused create is returned with the data as they
    were and nothing else is called; an answer with neither a Permission
    nor an error gives the error about the empty response.  The update hook
    has no such check: on the same answer to the create of a swap it
    dereferences the nil response. *)
Theorem empty_create_response (d : ResourceData) (w : World) :
  let p := mapResourceToPermission d in
  (∀ err, fst (createPermission p (service w)) = inl err →
          fst (resourcePermissionCreate d w) = (d, Returned (Some err))
          ∧ calls_of (resourcePermissionCreate d) w = [CallCreatePermission p])
  ∧ (fst (createPermission p (service w)) = inr None →
     fst (resourcePermissionCreate d w)
     = (d, Returned (Some
          "resourcePermissionCreate - failed to create permission, empty response"%string))
     ∧ calls_of (resourcePermissionCreate d) w = [CallCreatePermission p])
  ∧ (HasChanges d replace_keys = true →
     fst (createPermission p (snd (deletePermission (Id d) (service w)))) = inr None →
     snd (fst (resourcePermissionUpdate d w)) = Panicked).
Proof.
  intros p.
  pose proof (call_calls (CallCreatePermission p) (createPermission p) w) as Hc.
  destruct (call_result (CallCreatePermission p) (createPermission p) w) as [Hr _].
  split; [|split].
  - intros err E. rewrite create_unfold. fold p. cbn zeta. rewrite Hr, E.
    split; [reflexivity|].
    apply calls_of_app. rewrite create_unfold. fold p. cbn zeta. by rewrite Hr, E.
  - intros E. rewrite create_unfold. fold p. cbn zeta. rewrite Hr, E.
    split; [reflexivity|].
    apply calls_of_app. rewrite create_unfold. fold p. cbn zeta. by rewrite Hr, E.
  - intros Hch Hnil. unfold resourcePermissionUpdate.
    unfold replace_keys in Hch. rewrite Hch. rewrite !bind_eq.
    unfold resourcePermissionDelete, DeletePermission, CreatePermission.
    set (w1 := snd (call (CallDeletePermission (Id d)) _ w)).
    assert (Es1 : service w1 = snd (deletePermission (Id d) (service w)))
      by apply call_result.
    destruct (call_result (CallCreatePermission p) (createPermission p) w1) as [Er _].
    fold p. rewrite Er, Es1, Hnil. reflexivity.
Qed.

(** An update in which nothing the hook looks at changed is just the read;
    a refused tag update is returned as it is, with no read after it. *)
Theorem update_without_swap (d : ResourceData) (w : World) :
  HasChanges d replace_keys = false →
  (HasChange d "tags" = false →
   resourcePermissionUpdate d w = resourcePermissionRead d w)
  ∧ (HasChange d "tags" = true →
     ∀ err, fst (updatePermissionTags (mapResourceToPermission d) (service w)) = Some err →
            fst (resourcePermissionUpdate d w) = (d, Returned (Some err))
            ∧ calls_of (resourcePermissionUpdate d) w
              = [CallUpdatePermissionTags (mapResourceToPermission d)]).
Proof.
  intros Hch. unfold replace_keys in Hch. split; intros Htags.
  - unfold resourcePermissionUpdate. by rewrite Hch, Htags.
  - intros err E.
    destruct (call_result (CallUpdatePermissionTags (mapResourceToPermission d))
                (updatePermissionTags (mapResourceToPermission d)) w) as [Er _].
    split.
    + unfold resourcePermissionUpdate. rewrite Hch, Htags, bind_eq.
      unfold UpdatePermissionTags. rewrite Er, E. reflexivity.
    + apply calls_of_app. unfold resourcePermissionUpdate.
      rewrite Hch, Htags, bind_eq. unfold UpdatePermissionTags.
      rewrite Er, E. cbn. apply call_calls.
Qed.
End HookFacts.

Lemma read_hook_witness :
  let d := {| Id := "p1"; prior := sample_fields "t1" "read" "pipeline" "" ∅;
              planned := sample_fields "t1" "read" "pipeline" "" ∅ |} in
  let w := @Build_World PermissionSamples.unhelpful_service tt [] in
  fst (resourcePermissionRead d w) = (d, Returned (Some "404 Not Found, "%string)).
Proof.
  intros d w.
  apply (proj2 (read_hook (H := PermissionSamples.unhelpful_service) d w));
    [discriminate|reflexivity].
Defined.

Lemma empty_create_response_witness :
  let d := {| Id := "p1"; prior := sample_fields "t1" "read" "pipeline" "" ∅;
              planned := sample_fields "t2" "read" "pipeline" "" ∅ |} in
  let w := @Build_World PermissionSamples.unhelpful_service tt [] in
  snd (fst (resourcePermissionUpdate d w)) = Panicked.
Proof.
  intros d w.
  apply (empty_create_response (H := PermissionSamples.unhelpful_service) d w);
    reflexivity.
Defined.

Lemma update_without_swap_witness :
  let d := {| Id := "p1"; prior := sample_fields "t1" "read" "pipeline" "" ∅;
              planned := sample_fields "t1" "read" "pipeline" "" {[ "prod" ]} |} in
  let w := @Build_World PermissionSamples.unhelpful_service tt [] in
  fst (resourcePermissionUpdate d w)
  = (d, Returned (Some "500 Internal Server Error, "%string))
  ∧ calls_of (resourcePermissionUpdate d) w
    = [CallUpdatePermissionTags (mapResourceToPermission d)].
Proof.
  intros d w.
  apply (proj2 (update_without_swap (H := PermissionSamples.unhelpful_service)
                  d w eq_refl));
    reflexivity.
Defined.
End PermissionExtras.

(** ** Pipeline: every trigger, the way back, and the hooks *)

Module PipelineExtras.
Import PipelineResource PipelineHooks PipelineProofs.
Local Open Scope list_scope.

Section Facts.
Context `{ClientTypes}.

Lemma fold_keeps_metadata (d : ResourceData) (idxs : list nat) (p : Pipeline) :
  Metadata_ (fold_left (λ pipeline idx, append_trigger (map_trigger d idx) pipeline)
                       idxs p)
  = Metadata_ p.
Proof.
  revert p. induction idxs as [|i idxs IH]; intros p; simpl; [done|].
  by rewrite IH.
Qed.

Lemma mapped_trigger_at (d : ResourceData) (s : SpecBlock) (t : TriggerBlock) (i : nat) :
  spec d !! 0%nat = Some s →
  trigger s !! i = Some t →
  Triggers (Spec_ (mapResourceToPipeline d)) !! i = Some (map_trigger d i).
Proof.
  intros Hs Ht. rewrite mapped_triggers, list_lookup_fmap.
  unfold Get_triggers. rewrite Hs.
  rewrite lookup_seq_lt by (by eapply lookup_lt_Some). reflexivity.
Qed.

(** The Pipeline has as many triggers as the tree has trigger blocks, in the
    same order, and every trigger takes each attribute from its own block:
    the configured value when there is one, else the schema default ([git],
    [/.*/gi], [github], [github], not disabled) or the empty string. *)
Theorem triggers_follow_blocks (d : ResourceData) :
  length (Triggers (Spec_ (mapResourceToPipeline d))) = length (Get_triggers d)
  ∧ (∀ s t i, spec d !! 0%nat = Some s → trigger s !! i = Some t →
       ∃ tr, Triggers (Spec_ (mapResourceToPipeline d)) !! i = Some tr
             ∧ TName tr = default ""%string (attrs t !! "name")
             ∧ Description tr = default ""%string (attrs t !! "description")
             ∧ TRepo tr = default ""%string (attrs t !! "repo")
             ∧ Type_ tr = default "git"%string (attrs t !! "type")
             ∧ BranchRegex tr = default "/.*/gi"%string (attrs t !! "branch_regex")
             ∧ ModifiedFilesGlob tr = default ""%string (attrs t !! "modified_files_glob")
             ∧ Provider tr = default "github"%string (attrs t !! "provider")
             ∧ TContext tr = default "github"%string (attrs t !! "context")
             ∧ Disabled tr = default false (disabled t)
             ∧ Events tr = events t
             ∧ TVariables tr = variables_of (variables t)).
Proof.
  split.
  - by rewrite mapped_triggers, length_fmap, length_seq.
  - intros s t i Hs Ht. exists (map_trigger d i).
    split; [by eapply mapped_trigger_at|].
    unfold map_trigger, Trigger_SetVariables, Get_trigger_string,
      Get_trigger_disabled, Get_trigger_events, Get_trigger_variables,
      convertStringArr, read_attr.
    rewrite Hs. cbn [mbind option_bind]. rewrite Ht.
    cbn [TName Description TRepo Type_ BranchRegex ModifiedFilesGlob Provider
         TContext Disabled Events TVariables].
    repeat split; by destruct (attrs t !! _).
Qed.

(** The Pipeline built from the tree has no identifier of its own, and its
    name and project are those of the tree. *)
Lemma mapped_metadata (d : ResourceData) :
  ID (Metadata_ (mapResourceToPipeline d)) = ""%string
  ∧ Name (Metadata_ (mapResourceToPipeline d)) = name d
  ∧ ProjectId (Metadata_ (mapResourceToPipeline d)) = project_id d.
Proof. unfold mapResourceToPipeline. rewrite fold_keeps_metadata. done. Qed.
End Facts.

Lemma triggers_follow_blocks_witness :
  let t0 := {| attrs := {[ "name" := "push" ]}; events := ["push.heads"];
               disabled := None; variables := ∅ |} in
  let t1 := {| attrs := {[ "name" := "release"; "type" := "cron";
                           "branch_regex" := "/^release/" ]};
               events := []; disabled := Some true; variables := ∅ |} in
  let s := {| priority := None; concurrency := None; spec_template := [];
              spec_variables := ∅; trigger := [t0; t1] |} in
  let d := {| name := "p"; project_id := ""; tags := ∅; spec := [s] |} in
  ∃ tr, Triggers (Spec_ (mapResourceToPipeline d)) !! 1%nat = Some tr
        ∧ TName tr = "release"%string
        ∧ Type_ tr = "cron"%string
        ∧ BranchRegex tr = "/^release/"%string
        ∧ Provider tr = "github"%string
        ∧ Disabled tr = true.
Proof.
  intros t0 t1 s d.
  destruct (proj2 (triggers_follow_blocks d) s t1 1%nat eq_refl eq_refl)
    as (tr & Htr & Hn & _ & _ & Hty & Hb & _ & Hp & _ & Hd & _).
  exists tr. repeat split; assumption.
Defined.

Section FlattenFacts.
Context `{ClientTypes} `{FlattenHelpers}.

(** [flattenSpec] returns one map whose keys are among [trigger],
    [spec_template] and [variables], each present exactly when the Pipeline
    has triggers, a template that is not the zero value, or variables.  It
    never writes [priority] or [concurrency], whatever the Pipeline holds. *)
Theorem flattened_spec_keys (spec : Spec) :
  length (flattenSpec spec) = 1%nat
  ∧ (∀ k, is_Some (flattenSpec_map spec !! k) →
          k ∈ ["trigger"; "spec_template"; "variables"]%string)
  ∧ (is_Some (flattenSpec_map spec !! "trigger") ↔ Triggers spec ≠ [])
  ∧ (is_Some (flattenSpec_map spec !! "spec_template")
     ↔ SpecTemplate_ spec ≠ zero_SpecTemplate)
  ∧ (is_Some (flattenSpec_map spec !! "variables") ↔ Variables spec ≠ [])
  ∧ flattenSpec_map spec !! "priority" = None
  ∧ flattenSpec_map spec !! "concurrency" = None.
Proof.
  assert (Hkeys : ∀ k, is_Some (flattenSpec_map spec !! k) →
                       k ∈ ["trigger"; "spec_template"; "variables"]%string).
  { intros k [v Hv]. unfold flattenSpec_map in Hv.
    repeat match type of Hv with
           | context [if ?b then _ else _] => destruct b
           end;
      repeat (apply lookup_insert_Some in Hv as [[<- _]|[_ Hv]];
              [repeat constructor|]);
      by rewrite lookup_empty in Hv. }
  split; [reflexivity|]. split; [exact Hkeys|].
  assert (Hnone : ∀ k, k ∉ ["trigger"; "spec_template"; "variables"]%string →
                       flattenSpec_map spec !! k = None).
  { intros k Hk. destruct (flattenSpec_map spec !! k) eqn:E; [|done].
    exfalso. apply Hk, Hkeys. by rewrite E. }
  repeat split.
  - intros [v Hv] Hnil. unfold flattenSpec_map in Hv. rewrite Hnil in Hv.
    cbn [length Nat.ltb Nat.leb] in Hv.
    repeat match type of Hv with
           | context [if ?b then _ else _] => destruct b
           end;
      repeat (apply lookup_insert_Some in Hv as [[Hk _]|[_ Hv]]; [discriminate Hk|]);
      by rewrite lookup_empty in Hv.
  - intros Hne. unfold flattenSpec_map.
    destruct (Triggers spec) as [|t ts]; [done|]. cbn [length Nat.ltb Nat.leb].
    repeat match goal with
           | |- context [if ?b then _ else _] => destruct b
           end;
      rewrite ?(lookup_insert_ne _ "variables" "trigger") by discriminate;
      rewrite ?(lookup_insert_ne _ "spec_template" "trigger") by discriminate;
      rewrite lookup_insert_eq; eauto.
  - intros [v Hv] Hz. unfold flattenSpec_map in Hv.
    rewrite (decide_False (P := SpecTemplate_ spec ≠ zero_SpecTemplate)) in Hv
      by (intros Hn; by apply Hn).
    repeat match type of Hv with
           | context [if ?b then _ else _] => destruct b
           end;
      repeat (apply lookup_insert_Some in Hv as [[Hk _]|[_ Hv]]; [discriminate Hk|]);
      by rewrite lookup_empty in Hv.
  - intros Hne. unfold flattenSpec_map.
    rewrite (decide_True (P := SpecTemplate_ spec ≠ zero_SpecTemplate)) by done.
    repeat match goal with
           | |- context [if ?b then _ else _] => destruct b
           end;
      rewrite ?(lookup_insert_ne _ "variables" "spec_template") by discriminate;
      rewrite lookup_insert_eq; eauto.
  - intros [v Hv] Hnil. unfold flattenSpec_map in Hv. rewrite Hnil in Hv.
    cbn [length] in Hv.
    rewrite (decide_False (P := 0%nat ≠ 0%nat)) in Hv by (intros Hn; by apply Hn).
    repeat match type of Hv with
           | context [if ?b then _ else _] => destruct b
           end;
      repeat (apply lookup_insert_Some in Hv as [[Hk _]|[_ Hv]]; [discriminate Hk|]);
      by rewrite lookup_empty in Hv.
  - intros Hne. unfold flattenSpec_map.
    rewrite (decide_True (P := length (Variables spec) ≠ 0%nat))
      by (by destruct (Variables spec)).
    rewrite lookup_insert_eq. eauto.
  - apply Hnone. intros Hin.
    repeat (apply elem_of_cons in Hin as [Hin|Hin]; [discriminate Hin|]).
    by apply elem_of_nil in Hin.
  - apply Hnone. intros Hin.
    repeat (apply elem_of_cons in Hin as [Hin|Hin]; [discriminate Hin|]).
    by apply elem_of_nil in Hin.
Qed.

(** Flattening the triggers of the Pipeline built from a tree gives, for
    every trigger block, a map that holds under each string attribute what
    the block configures, or the schema default when the block leaves the
    attribute out, and the block's [disabled] flag and events. *)
Theorem flattened_triggers_read_back (d : ResourceData) (s : SpecBlock)
    (t : TriggerBlock) (i : nat) :
  spec d !! 0%nat = Some s →
  trigger s !! i = Some t →
  ∃ m, flattenTriggers (Triggers (Spec_ (mapResourceToPipeline d))) !! i = Some m
       ∧ (∀ key, key ∈ ["name"; "description"; "context"; "repo"; "branch_regex";
                        "modified_files_glob"; "provider"; "type"]%string →
                 m !! key = Some (VString (read_attr trigger_defaults (attrs t) key)))
       ∧ m !! "disabled" = Some (VBool (default false (disabled t)))
       ∧ m !! "events" = Some (VList (VString <$> events t)).
Proof.
  intros Hs Ht. exists (flattenTrigger (map_trigger d i)). split.
  - unfold flattenTriggers. rewrite list_lookup_fmap.
    by rewrite (mapped_trigger_at d s t i).
  - unfold flattenTrigger, map_trigger, Trigger_SetVariables, Get_trigger_string,
      Get_trigger_disabled, Get_trigger_events, convertStringArr.
    rewrite Hs. cbn [mbind option_bind]. rewrite Ht.
    cbn [TName Description TRepo Type_ BranchRegex ModifiedFilesGlob Provider
         TContext Disabled Events TVariables].
    repeat split.
    intros key Hkey.
    repeat (apply elem_of_cons in Hkey as [-> |Hkey]; [reflexivity|]).
    by apply elem_of_nil in Hkey.
Qed.
End FlattenFacts.

Lemma flattened_triggers_read_back_witness :
  let t := {| attrs := {[ "name" := "push"; "provider" := "gitlab" ]};
              events := ["push.heads"]; disabled := None; variables := ∅ |} in
  let s := {| priority := Some 5%Z; concurrency := None; spec_template := [];
              spec_variables := ∅; trigger := [t] |} in
  let d := {| name := "p"; project_id := ""; tags := ∅; spec := [s] |} in
  ∃ m, flattenTriggers (Triggers (Spec_ (mapResourceToPipeline d))) !! 0%nat = Some m
       ∧ m !! "provider" = Some (VString "gitlab")
       ∧ m !! "type" = Some (VString "git")
       ∧ m !! "disabled" = Some (VBool false).
Proof.
  intros t s d.
  destruct (flattened_triggers_read_back d s t 0%nat eq_refl eq_refl)
    as (m & Hm & Hkeys & Hd & _).
  exists m. split; [exact Hm|]. split; [|split; [|exact Hd]].
  - apply (Hkeys "provider"%string). repeat constructor.
  - apply (Hkeys "type"%string). repeat constructor.
Defined.

Section HookFacts.
Context `{ClientTypes} `{PipelineService}.

Lemma pipeline_call_log {A} (c : Call) (h : PipelineState → A * PipelineState) (w : World) :
  calls (snd (call c h w)) = calls w ++ [c]
  ∧ fst (call c h w) = fst (h (service w)).
Proof. unfold call. by destruct (h (service w)). Qed.

(** The create hook makes one call, with the Pipeline built from the tree
    (which has no identifier); a refusal is returned with the resource as
    it was; on success the identifier becomes the one the service issued
    and the attributes stay as they were: nothing is read back. *)
Theorem create_pipeline_hook (d : Resource) (w : World) :
  let pipeline := mapResourceToPipeline (data d) in
  calls_of (resourcePipelineCreate d) w = [CallCreatePipeline pipeline]
  ∧ ID (Metadata_ pipeline) = ""%string
  ∧ data (fst (fst (resourcePipelineCreate d w))) = data d
  ∧ (∀ err, fst (createPipeline pipeline (service w)) = inl err →
            fst (resourcePipelineCreate d w) = (d, Some err))
  ∧ (∀ resp, fst (createPipeline pipeline (service w)) = inr resp →
            fst (resourcePipelineCreate d w) = (SetId (ID (Metadata_ resp)) d, None)).
Proof.
  intros pipeline. unfold calls_of, resourcePipelineCreate. fold pipeline.
  destruct (pipeline_call_log (CallCreatePipeline pipeline) (createPipeline pipeline) w)
    as [Hc Hr].
  destruct (call (CallCreatePipeline pipeline) (createPipeline pipeline) w) as [r w1].
  cbn [fst snd] in *. rewrite <- Hr.
  split; [|split; [|split; [|split]]].
  - destruct r; cbn; by rewrite Hc, drop_app_length.
  - apply mapped_metadata.
  - by destruct r.
  - by intros err ->.
  - by intros resp ->.
Qed.

(** The update hook makes one call, with the Pipeline built from the tree
    under the identifier of the resource, and leaves the resource as it is;
    the delete hook makes one call, for that identifier. *)
Theorem update_pipeline_hook (d : Resource) (w : World) :
  let pipeline := Pipeline_SetID (Id d) (mapResourceToPipeline (data d)) in
  calls_of (resourcePipelineUpdate d) w = [CallUpdatePipeline pipeline]
  ∧ ID (Metadata_ pipeline) = Id d
  ∧ Name (Metadata_ pipeline) = name (data d)
  ∧ Spec_ pipeline = Spec_ (mapResourceToPipeline (data d))
  ∧ fst (fst (resourcePipelineUpdate d w)) = d
  ∧ calls_of (resourcePipelineDelete d) w = [CallDeletePipeline (Id d)].
Proof.
  intros pipeline. unfold calls_of, resourcePipelineUpdate, resourcePipelineDelete.
  fold pipeline.
  destruct (pipeline_call_log (CallUpdatePipeline pipeline) (updatePipeline pipeline) w)
    as [Hc _].
  destruct (pipeline_call_log (CallDeletePipeline (Id d)) (deletePipeline (Id d)) w)
    as [Hd _].
  destruct (call (CallUpdatePipeline pipeline) (updatePipeline pipeline) w) as [r w1].
  destruct (call (CallDeletePipeline (Id d)) (deletePipeline (Id d)) w) as [r2 w2].
  cbn [fst snd] in *.
  split; [|split; [|split; [|split; [|split]]]].
  - destruct r; cbn; by rewrite Hc, drop_app_length.
  - reflexivity.
  - apply mapped_metadata.
  - reflexivity.
  - by destruct r.
  - cbn. by rewrite Hd, drop_app_length.
Qed.
End HookFacts.
End PipelineExtras.
